(** * Stockholm: the government-bond scraper (client/src/app/scraper/scraper.ts)

    A shallow embedding of the extraction engine of [scraper.ts]: the numeric
    normaliser [parseNumeric], the three extraction strategies that run inside
    [page.evaluate], [scrapeCountryBonds], [scrapeAllCountries] and the
    10-year filter of [main].

    JavaScript strings are sequences of UTF-16 code units, numbers are IEEE
    binary64 values ([spec_float] of the Standard Library, precision 53,
    emax 1024), arrays are lists, [number | null] is [option].

    The rendered page is a tree of elements and text nodes together with the
    rendered text of its body; the selectors of the scraper are matched on
    the tree. The Unicode case mapping [toLowerCase] is a parameter: the
    properties that evaluate it assume only that it maps A..Z to a..z on
    ASCII strings. The array [bonds] of the callback is passed along as an
    accumulator, an exception is the completion [Throws], and what the
    browser does for a page is a record of which awaited calls reject. *)

From Stdlib Require Import List ZArith NArith QArith String Ascii Bool Lia.
From Stdlib Require Import Floats.SpecFloat.
From Stdlib Require Import DecimalNat.
Import ListNotations.

Set Implicit Arguments.

(** ** The JavaScript built-ins the scraper calls *)

Module JS.

(** A string value: its UTF-16 code units. *)
Definition jsstring := list N.

(** An ASCII literal of the source, as code units. *)
Definition str (s : string) : jsstring :=
  map N_of_ascii (list_ascii_of_string s).

Fixpoint takeWhile (A : Type) (p : A -> bool) (l : list A) : list A :=
  match l with
  | [] => []
  | x :: r => if p x then x :: takeWhile p r else []
  end.

Fixpoint dropWhile (A : Type) (p : A -> bool) (l : list A) : list A :=
  match l with
  | [] => []
  | x :: r => if p x then dropWhile p r else l
  end.

Fixpoint eqs (a b : jsstring) : bool :=
  match a, b with
  | [], [] => true
  | x :: a', y :: b' => (x =? y)%N && eqs a' b'
  | _, _ => false
  end.

Definition mem (c : N) (l : list N) : bool := existsb (N.eqb c) l.

(** WhiteSpace and LineTerminator of ECMAScript: TAB, LF, VT, FF, CR, SP,
    NBSP, U+1680, U+2000..U+200A, LS, PS, U+202F, U+205F, U+3000, BOM. *)
Definition isWhiteSpace (c : N) : bool :=
  mem c [9; 10; 11; 12; 13; 32; 160; 5760; 8232; 8233; 8239; 8287; 12288; 65279]%N
  || ((8192 <=? c)%N && (c <=? 8202)%N).

Definition trimStart (s : jsstring) : jsstring := dropWhile isWhiteSpace s.
Definition trimEnd (s : jsstring) : jsstring := rev (trimStart (rev s)).

(** [String.prototype.trim] *)
Definition trim (s : jsstring) : jsstring := trimEnd (trimStart s).

Fixpoint startsWith (s p : jsstring) {struct p} : bool :=
  match p, s with
  | [], _ => true
  | x :: p', y :: s' => (x =? y)%N && startsWith s' p'
  | _ :: _, [] => false
  end.

(** [String.prototype.includes]: [p] occurs in [s]. *)
Fixpoint includes (s p : jsstring) : bool :=
  startsWith s p ||
  match s with
  | [] => false
  | _ :: s' => includes s' p
  end.

(** [p] is a substring of [s]. *)
Definition occursIn (p s : jsstring) : Prop :=
  exists pre post, s = pre ++ p ++ post.

(** [String.prototype.split] with a separator of one code unit. *)
Fixpoint split (sep : N) (s : jsstring) : list jsstring :=
  match s with
  | [] => [[]]
  | c :: r =>
      if (c =? sep)%N then [] :: split sep r
      else match split sep r with
           | h :: t => (c :: h) :: t
           | [] => [[c]]
           end
  end.

(** [Array.prototype.join] *)
Fixpoint join (sep : jsstring) (l : list jsstring) : jsstring :=
  match l with
  | [] => []
  | [x] => x
  | x :: r => x ++ sep ++ join sep r
  end.

(** [Array.prototype.slice(from, to)] for indices that are not negative. *)
Definition slice (A : Type) (from to : nat) (l : list A) : list A :=
  firstn (to - from) (skipn from l).

(** The character classes [\d] and [\w] of a regular expression without
    the [u] and [i] flags. *)
Definition isDigit (c : N) : bool := (48 <=? c)%N && (c <=? 57)%N.
Definition isWord (c : N) : bool :=
  isDigit c || ((65 <=? c)%N && (c <=? 90)%N)
  || ((97 <=? c)%N && (c <=? 122)%N) || (c =? 95)%N.

(** [String.prototype.toLowerCase] restricted to ASCII: A..Z to a..z. The
    full Unicode mapping is a parameter of the scraper below; it agrees with
    this one on strings of ASCII code units. *)
Definition lowerUnit (c : N) : N :=
  if (65 <=? c)%N && (c <=? 90)%N then (c + 32)%N else c.
Definition toLowerCaseASCII (s : jsstring) : jsstring := map lowerUnit s.
Definition isASCII (s : jsstring) : bool := forallb (fun c => (c <? 128)%N) s.

(** *** Numbers *)

(** A Number value. *)
Definition Number := spec_float.

Definition NaN : Number := S754_nan.

(** The global [isNaN] on a Number. *)
Definition isNaN (x : Number) : bool :=
  match x with
  | S754_nan => true
  | _ => false
  end.

(** ToBoolean on a Number: +0, -0 and NaN are falsy. *)
Definition truthy (x : Number) : bool :=
  match x with
  | S754_nan | S754_zero _ => false
  | _ => true
  end.

Definition isFinite (x : Number) : bool :=
  match x with
  | S754_zero _ | S754_finite _ _ _ => true
  | _ => false
  end.

(** The quotient [a / b] of two positive integers as a Number: the nearest
    binary64 value, ties to even, an infinity on overflow. The quotient is
    rounded once. *)
Definition roundQuotient (neg : bool) (a b : positive) : Number :=
  SFdiv 53 1024 (S754_finite neg a 0) (S754_finite false b 0).

(** The Number value of the decimal [(-1)^neg * m * 10^e], [m >= 0]. *)
Definition number (neg : bool) (m : Z) (e : Z) : Number :=
  match m with
  | Zpos p =>
      match (10 ^ Z.max e 0 * Zpos p)%Z, (10 ^ Z.max (- e) 0)%Z with
      | Zpos a, Zpos b => roundQuotient neg a b
      | _, _ => NaN
      end
  | _ => S754_zero neg
  end.

(** The Number value of a rational: what a numeric literal such as [4.4]
    denotes in a program. *)
Definition nearest (q : Q) : Number :=
  match Qnum q with
  | Zpos a => roundQuotient false a (Qden q)
  | Zneg a => roundQuotient true a (Qden q)
  | Z0 => S754_zero false
  end.

(** The real value of a finite Number. *)
Definition value (x : Number) : option Q :=
  match x with
  | S754_zero _ => Some 0%Q
  | S754_finite s m e =>
      Some ((if s then -1 else 1) * inject_Z (Zpos m) * 2 ^ e)%Q
  | _ => None
  end.

(** [x] is finite and its real value is [q]. *)
Definition exactly (x : Number) (q : Q) : Prop :=
  match value x with
  | Some v => v == q
  | None => False
  end.

(** *** parseFloat *)

Definition digitValue (c : N) : Z := Z.of_N (c - 48).

Definition digitsValue (ds : jsstring) : Z :=
  fold_left (fun a c => (10 * a + digitValue c)%Z) ds 0%Z.

(** An optional sign: ['-'] is 45, ['+'] is 43. *)
Definition scanSign (s : jsstring) : bool * jsstring :=
  match s with
  | c :: r =>
      if (c =? 45)%N then (true, r)
      else if (c =? 43)%N then (false, r)
      else (false, s)
  | [] => (false, [])
  end.

(** ExponentPart, when one is there in full: [e] or [E], an optional sign,
    at least one digit. Returns the exponent and what follows it. *)
Definition scanExponent (s : jsstring) : Z * jsstring :=
  match s with
  | c :: r =>
      if (c =? 101)%N || (c =? 69)%N then
        let (neg, r1) := scanSign r in
        match takeWhile isDigit r1 with
        | [] => (0%Z, s)
        | ds => ((if neg then - digitsValue ds else digitsValue ds)%Z,
                 dropWhile isDigit r1)
        end
      else (0%Z, s)
  | [] => (0%Z, s)
  end.

(** The longest prefix that is a StrDecimalLiteral. *)
Inductive Literal :=
| NoLiteral
| InfinityLiteral (neg : bool) (rest : jsstring)
| DecimalLiteral (neg : bool) (mantissa : Z) (exp10 : Z) (rest : jsstring).

(** Digits, then possibly a point and digits: the digits before the point,
    those after it, and what follows them. *)
Definition scanMantissa (s : jsstring) : jsstring * jsstring * jsstring :=
  let ip := takeWhile isDigit s in
  match dropWhile isDigit s with
  | c :: r =>
      if (c =? 46)%N then (ip, takeWhile isDigit r, dropWhile isDigit r)
      else (ip, [], c :: r)
  | [] => (ip, [], [])
  end.

Definition scanLiteral (s : jsstring) : Literal :=
  let (neg, s1) := scanSign s in
  if startsWith s1 (str "Infinity") then InfinityLiteral neg (skipn 8 s1)
  else
    let '(ip, fp, r2) := scanMantissa s1 in
    match ip ++ fp with
    | [] => NoLiteral
    | ds =>
        let (e, r3) := scanExponent r2 in
        DecimalLiteral neg (digitsValue ds) (e - Z.of_nat (List.length fp)) r3
    end.

(** The whole of [s] is a decimal literal: digits with an optional sign,
    point and exponent, and nothing after them. *)
Definition isDecimalLiteral (s : jsstring) : bool :=
  match scanLiteral s with
  | DecimalLiteral _ _ _ [] => true
  | _ => false
  end.

(** The global [parseFloat]: leading white space is skipped, the longest
    prefix that is a decimal literal is read and what follows it is ignored;
    NaN when there is no such prefix. *)
Definition parseFloat (s : jsstring) : Number :=
  match scanLiteral (trimStart s) with
  | NoLiteral => NaN
  | InfinityLiteral neg _ => S754_infinity neg
  | DecimalLiteral neg m e _ => number neg m e
  end.

End JS.

Import JS.

(** ** The rendered document the scraper queries *)

Module Dom.
Import JS.

(** A node of the rendered tree: a text node, or an element with its local
    name (lower-case in an HTML document), its attributes and its children
    in document order. *)
#[warnings="-register-all"]
Inductive Node :=
| Text (data : jsstring)
| Element (localName : jsstring) (attributes : list (jsstring * jsstring))
    (childNodes : list Node).

(** The rendered document: its root element and the rendered text of its
    body ([document.body.innerText], which depends on layout and styling
    and is therefore given with the tree, not computed from it). *)
Record Document := {
  documentElement : Node;
  innerText : jsstring
}.

(** The nodes below [n], in document order. *)
Fixpoint descendants (n : Node) : list Node :=
  match n with
  | Text _ => []
  | Element _ _ cs => flat_map (fun c => c :: descendants c) cs
  end.

(** [Node.textContent] of an element: the data of the text nodes below it,
    concatenated in document order. *)
Fixpoint textContent (n : Node) : jsstring :=
  match n with
  | Text d => d
  | Element _ _ cs => flat_map textContent cs
  end.

Fixpoint getAttribute (name : jsstring) (attrs : list (jsstring * jsstring))
  : option jsstring :=
  match attrs with
  | [] => None
  | (k, v) :: r => if eqs k name then Some v else getAttribute name r
  end.

(** The tokens of a [class] attribute: split on ASCII white space. *)
Definition isASCIIWhiteSpace (c : N) : bool := mem c [9; 10; 12; 13; 32]%N.

Fixpoint tokens (cur : jsstring) (s : jsstring) : list jsstring :=
  match s with
  | [] => match cur with [] => [] | _ => [rev cur] end
  | c :: r =>
      if isASCIIWhiteSpace c
      then match cur with [] => tokens [] r | _ => rev cur :: tokens [] r end
      else tokens (c :: cur) r
  end.

(** The simple selectors the scraper uses: [name], [.name],
    [[attr="v"]] and [[attr*="v"]]. Names and values are compared as they
    are written (an HTML document in no-quirks mode, whose parser has
    lower-cased element and attribute names). *)
Inductive Simple :=
| ByType (name : jsstring)
| ByClass (name : jsstring)
| AttrEquals (attr v : jsstring)
| AttrContains (attr v : jsstring).

(** A selector list [a, b, ...]: an element matches it when it matches one
    of its members. *)
Definition Selector := list Simple.

Definition matchesSimple (n : Node) (s : Simple) : bool :=
  match n with
  | Text _ => false
  | Element name attrs _ =>
      match s with
      | ByType t => eqs name t
      | ByClass c =>
          match getAttribute (str "class") attrs with
          | Some v => existsb (eqs c) (tokens [] v)
          | None => false
          end
      | AttrEquals a v =>
          match getAttribute a attrs with
          | Some w => eqs w v
          | None => false
          end
      | AttrContains a v =>
          match getAttribute a attrs with
          | Some w => negb (eqs v []) && includes w v
          | None => false
          end
      end
  end.

Definition matches (sel : Selector) (n : Node) : bool :=
  existsb (matchesSimple n) sel.

(** [Element.querySelectorAll]: the elements below [n] that match, each
    once, in document order. *)
Definition querySelectorAll (sel : Selector) (n : Node) : list Node :=
  filter (matches sel) (descendants n).

(** [document.querySelectorAll]: the same over every element of the
    document, its root included. *)
Definition documentQuerySelectorAll (sel : Selector) (d : Document)
  : list Node :=
  filter (matches sel) (documentElement d :: descendants (documentElement d)).

End Dom.

Import Dom.

(** ** The numeric normaliser (scraper.ts, lines 90-95) *)

(** The characters of the class [[,%$£€¥]]. *)
Definition formatting : list N := [44; 37; 36; 163; 8364; 165]%N.

(** [text.replace(/[,%$£€¥]/g, '').trim()] *)
Definition cleaned (text : jsstring) : jsstring :=
  trim (filter (fun c => negb (mem c formatting)) text).

Definition parseNumeric (text : jsstring) : option Number :=
  if eqs text [] || eqs (trim text) [] || eqs text (str "--")
     || eqs text (str "N/A")
  then None
  else
    let num := parseFloat (cleaned text) in
    if isNaN num then None else Some num.

(** ** Records and configuration (scraper.ts, lines 5-48) *)

(** [BloombergBondData] *)
Record BloombergBondData := {
  country : jsstring;
  name : jsstring;
  coupon : option Number;
  price : option Number;
  yield : option Number;
  oneMonth : option Number;
  oneYear : option Number;
  scrapedAt : jsstring
}.

(** [CountryConfig]; its fields are [Country.name], [Country.url] and
    [Country.code]. *)
Module Country.
Record Config := { name : jsstring; url : jsstring; code : jsstring }.
End Country.

Definition COUNTRIES : list Country.Config :=
  [ {| Country.name := str "United States";
       Country.url := str "https://www.bloomberg.com/markets/rates-bonds/government-bonds/us";
       Country.code := str "US" |};
    {| Country.name := str "United Kingdom";
       Country.url := str "https://www.bloomberg.com/markets/rates-bonds/government-bonds/uk";
       Country.code := str "UK" |};
    {| Country.name := str "Germany";
       Country.url := str "https://www.bloomberg.com/markets/rates-bonds/government-bonds/germany";
       Country.code := str "DE" |};
    {| Country.name := str "Japan";
       Country.url := str "https://www.bloomberg.com/markets/rates-bonds/government-bonds/japan";
       Country.code := str "JP" |};
    {| Country.name := str "Australia";
       Country.url := str "https://www.bloomberg.com/markets/rates-bonds/government-bonds/australia";
       Country.code := str "AU" |} ].

(** How a call ends: with a value, or with an exception. *)
Inductive Completion (A : Type) :=
| Returns (a : A)
| Throws.
Arguments Throws {A}.

(** ** The callback of [page.evaluate] (scraper.ts, lines 87-280)

    [bonds] is the array the callback pushes to. Each push reads the clock
    once ([new Date().toISOString()]) and nothing else reads it, so the
    record pushed when [bonds] holds [k] records carries the [k]-th reading
    [now k]. *)

Section Evaluate.

(** [String.prototype.toLowerCase], the Unicode case mapping of the engine. *)
Variable toLowerCase : jsstring -> jsstring.

Variable countryName : jsstring.
Variable now : nat -> jsstring.

(** [cells[k]?.textContent?.trim() || ''] *)
Definition cellText (cells : list Node) (k : nat) : jsstring :=
  match nth_error cells k with
  | Some c => trim (textContent c)
  | None => []
  end.

(** The object pushed by strategies 1 and 2 for a row with cells [cells]. *)
Definition rowRecord (name : jsstring) (cells : list Node) (at_ : jsstring)
  : BloombergBondData :=
  {| country := countryName;
     name := name;
     coupon := parseNumeric (cellText cells 1);
     price := parseNumeric (cellText cells 2);
     yield := parseNumeric (cellText cells 3);
     oneMonth := parseNumeric (cellText cells 4);
     oneYear := parseNumeric (cellText cells 5);
     scrapedAt := at_ |}.

(** *** Strategy 1: tables (lines 104-165) *)

Definition headerWords : list jsstring :=
  map str ["name"; "security"; "bond"; "gilt"; "treasury"; "yield";
           "maturity"; "coupon"]%string.

Definition isBondHeader (headerText : jsstring) : bool :=
  existsb (includes headerText) headerWords.

(** The name validation of lines 144-149. *)
Definition validTableName (name : jsstring) : bool :=
  negb (eqs name []) && (1 <? List.length name)
  && negb (includes (toLowerCase name) (str "name"))
  && negb (includes (toLowerCase name) (str "security"))
  && (existsb isDigit name
      || includes (toLowerCase name) (str "year")
      || includes (toLowerCase name) (str "month")
      || includes (toLowerCase name) (str "gilt")
      || includes (toLowerCase name) (str "treasury")
      || includes (toLowerCase name) (str "bond")).

Definition tableCells : Selector := [ByType (str "td"); ByType (str "th")].

(** The cells of a table row as the scraper reads them: the trimmed text of
    each [td] and [th], in order. *)
Definition cellTexts (row : Node) : list jsstring :=
  map (fun c => trim (textContent c)) (querySelectorAll tableCells row).

(** The body of the loop over [j] (lines 132-162). *)
Definition tableRow (bonds : list BloombergBondData) (row : Node)
  : list BloombergBondData :=
  let cells := querySelectorAll tableCells row in
  if 2 <=? List.length cells then
    let name := cellText cells 0 in
    if validTableName name
    then bonds ++ [rowRecord name cells (now (List.length bonds))]
    else bonds
  else bonds.

(** The body of the loop over [i] (lines 109-164). *)
Definition table (bonds : list BloombergBondData) (t : Node)
  : list BloombergBondData :=
  let rows := querySelectorAll [ByType (str "tr")] t in
  if List.length rows <? 2 then bonds
  else
    let headerText :=
      match rows with
      | r0 :: _ => toLowerCase (textContent r0)
      | [] => []
      end in
    if isBondHeader headerText
    then fold_left tableRow (tl rows) bonds
    else bonds.

Definition strategy1 (d : Document) (bonds : list BloombergBondData)
  : list BloombergBondData :=
  fold_left table (documentQuerySelectorAll [ByType (str "table")] d) bonds.

(** *** Strategy 2: site-specific selectors (lines 167-221) *)

Definition bloombergSelectors : list Selector :=
  [ [AttrEquals (str "data-module") (str "DataTable")];
    [ByClass (str "data-table")];
    [ByClass (str "bond-table")];
    [AttrContains (str "class") (str "table")];
    [AttrContains (str "class") (str "bond")];
    [AttrContains (str "class") (str "security")];
    [ByClass (str "bb-table")];
    [AttrContains (str "data-testid") (str "table")];
    [AttrEquals (str "role") (str "table")];
    [ByClass (str "rates-table")] ].

Definition selectorRows : Selector :=
  [ByType (str "tr"); ByClass (str "table-row");
   AttrEquals (str "role") (str "row")].

Definition selectorCells : Selector :=
  [ByType (str "td"); ByClass (str "table-cell"); ByClass (str "data-cell");
   AttrEquals (str "role") (str "cell");
   AttrEquals (str "role") (str "gridcell")].

(** [name && name.length > 2 && name.match(/\w/)] *)
Definition validSelectorName (name : jsstring) : bool :=
  negb (eqs name []) && (2 <? List.length name) && existsb isWord name.

(** The callback of [rows.forEach] for an index other than 0. *)
Definition selectorRow (bonds : list BloombergBondData) (row : Node)
  : list BloombergBondData :=
  let cells := querySelectorAll selectorCells row in
  if 2 <=? List.length cells then
    let name := cellText cells 0 in
    if validSelectorName name
    then bonds ++ [rowRecord name cells (now (List.length bonds))]
    else bonds
  else bonds.

(** The callback of [elements.forEach]: row 0 is skipped. *)
Definition selectorElement (bonds : list BloombergBondData) (element : Node)
  : list BloombergBondData :=
  fold_left selectorRow (tl (querySelectorAll selectorRows element)) bonds.

Definition strategy2 (d : Document) (bonds : list BloombergBondData)
  : list BloombergBondData :=
  fold_left
    (fun bonds selector =>
       fold_left selectorElement (documentQuerySelectorAll selector d) bonds)
    bloombergSelectors bonds.

(** *** Strategy 3: the rendered text (lines 223-267) *)

(** What [bondKeywords[key]] evaluates to: an array that is a property of the
    object itself, a member inherited from [Object.prototype] (which is not
    an array), or [undefined]. *)
Inductive Lookup :=
| Own (words : list jsstring)
| Inherited
| Undefined.

Definition objectPrototype : list jsstring :=
  map str ["constructor"; "__defineGetter__"; "__defineSetter__";
           "hasOwnProperty"; "__lookupGetter__"; "__lookupSetter__";
           "isPrototypeOf"; "propertyIsEnumerable"; "toString"; "valueOf";
           "__proto__"; "toLocaleString"]%string.

Definition bondKeywords (key : jsstring) : Lookup :=
  if eqs key (str "United States")
  then Own (map str ["treasury"; "bond"; "note"; "bill"]%string)
  else if eqs key (str "United Kingdom")
  then Own (map str ["gilt"; "treasury"; "bond"]%string)
  else if eqs key (str "Germany")
  then Own (map str ["bund"; "bobl"; "schatz"; "treasury"]%string)
  else if eqs key (str "Japan")
  then Own (map str ["bond"; "treasury"; "jgb"]%string)
  else if eqs key (str "Australia")
  then Own (map str ["bond"; "treasury"; "agb"]%string)
  else if existsb (eqs key) objectPrototype then Inherited
  else Undefined.

(** [bondKeywords[countryName] || ['bond', 'treasury']]; [None] stands for
    a value that has no [some] method, so that [keywords.some(...)] throws. *)
Definition keywords : option (list jsstring) :=
  match bondKeywords countryName with
  | Own words => Some words
  | Inherited => None
  | Undefined => Some (map str ["bond"; "treasury"]%string)
  end.

(** A match of [\d+\.\d{1,4}] that starts at the head of [s]. *)
Definition matchAt (s : jsstring) : option jsstring :=
  match takeWhile isDigit s with
  | [] => None
  | ip =>
      match dropWhile isDigit s with
      | c :: r =>
          if (c =? 46)%N then
            match firstn 4 (takeWhile isDigit r) with
            | [] => None
            | fp => Some (ip ++ [46%N] ++ fp)
            end
          else None
      | [] => None
      end
  end.

(** The leftmost matches, none overlapping another: after a match of [n]
    code units the search resumes [n] units further ([skip] counts the units
    of the last match still to pass). *)
Fixpoint scanNumbers (skip : nat) (s : jsstring) : list jsstring :=
  match s with
  | [] => []
  | _ :: r =>
      match skip with
      | S k => scanNumbers k r
      | O =>
          match matchAt s with
          | Some tok => tok :: scanNumbers (List.length tok - 1) r
          | None => scanNumbers 0 r
          end
      end
  end.

(** [s.match(/\d+\.\d{1,4}/g) || []] *)
Definition matchNumbers (s : jsstring) : list jsstring := scanNumbers 0 s.

(** [parseFloat(numbers[k]) || null]; [numbers[k]] is [undefined] out of
    range, and [parseFloat(undefined)] is NaN. *)
Definition tokenValue (numbers : list jsstring) (k : nat) : option Number :=
  match nth_error numbers k with
  | Some tok => let x := parseFloat tok in if truthy x then Some x else None
  | None => None
  end.

(** [pageText.split('\n').map(line => line.trim()).filter(line => line.length > 0)] *)
Definition textLines (pageText : jsstring) : list jsstring :=
  filter (fun line => 0 <? List.length line) (map trim (split 10 pageText)).

(** [lines.slice(Math.max(0, i-1), i + 3).join(' ')] *)
Definition contextOf (lines : list jsstring) (i : nat) : jsstring :=
  join (str " ") (slice (Nat.max 0 (i - 1)) (i + 3) lines).

(** The body of the loop over [i] (lines 241-265), for an array [words]. *)
Definition textLine (words lines : list jsstring)
  (bonds : list BloombergBondData) (i : nat) : list BloombergBondData :=
  let line := nth i lines [] in
  let hasKeyword :=
    existsb (fun keyword => includes (toLowerCase line) keyword) words in
  let hasNumbers := matchNumbers line in
  let hasPercent := includes line (str "%") in
  if (hasKeyword || hasPercent) && (0 <? List.length hasNumbers)
     && (5 <? List.length line)
  then
    let numbers := matchNumbers (contextOf lines i) in
    if 1 <=? List.length numbers then
      bonds ++ [ {| country := countryName;
                    name := line;
                    coupon := tokenValue numbers 0;
                    price := tokenValue numbers 1;
                    yield := tokenValue numbers 2;
                    oneMonth := tokenValue numbers 3;
                    oneYear := tokenValue numbers 4;
                    scrapedAt := now (List.length bonds) |} ]
    else bonds
  else bonds.

(** The loop throws at its first iteration when [keywords] has no [some]. *)
Definition strategy3 (d : Document) (bonds : list BloombergBondData)
  : Completion (list BloombergBondData) :=
  let lines := textLines (innerText d) in
  match keywords with
  | Some words =>
      Returns (fold_left (textLine words lines) (seq 0 (List.length lines)) bonds)
  | None =>
      match lines with
      | [] => Returns bonds
      | _ :: _ => Throws
      end
  end.

(** *** The callback as a whole *)

(** The lines the callback writes to the page's console on entering
    strategy 2 and strategy 3 (lines 169 and 225; the other narration is
    left out). *)
Definition tryingSelectors : jsstring := str "Trying Bloomberg-specific selectors...".
Definition tryingText : jsstring := str "Trying enhanced text parsing...".

Record Evaluation := {
  console : list jsstring;
  completion : Completion (list BloombergBondData)
}.

Definition evaluate (d : Document) : Evaluation :=
  let bonds := strategy1 d [] in
  let (log, bonds) :=
    if List.length bonds =? 0
    then ([tryingSelectors], strategy2 d bonds)
    else ([], bonds) in
  if List.length bonds =? 0
  then {| console := log ++ [tryingText]; completion := strategy3 d bonds |}
  else {| console := log; completion := Returns bonds |}.

End Evaluate.

(** ** The browser, [scrapeCountryBonds] and [scrapeAllCountries]
    (scraper.ts, lines 50-312) *)

(** What the browser does with the page opened for one country: which of the
    awaited calls resolve ([true]) or reject ([false]), the document the
    callback of [page.evaluate] runs in ([None]: [page.evaluate] itself
    rejects), and the clock of the page. *)
Record Session := {
  newPage : bool;          (* browser.newPage() and the header set-up *)
  goto : bool;             (* page.goto: false on a time-out or a network error *)
  waitForTimeout : bool;   (* page.waitForTimeout *)
  rendered : option Document;
  clock : nat -> jsstring;
  close : bool             (* page.close() *)
}.

Record Browser := {
  launch : bool;                       (* puppeteer.launch *)
  pageFor : Country.Config -> Session; (* the page opened for each country *)
  closeBrowser : bool                  (* browser.close() *)
}.

Section Run.

Variable toLowerCase : jsstring -> jsstring.

(** How the browser hands the value of the callback back to the caller of
    [page.evaluate] (it is serialised on the way). *)
Variable returnByValue : list BloombergBondData -> list BloombergBondData.

(** The [try] block of [scrapeCountryBonds] (lines 68-283). The rejection
    of [page.waitForSelector] is caught where it is raised (lines 80-85) and
    changes nothing. *)
Definition attempt (s : Session) (country : Country.Config)
  : Completion (list BloombergBondData) :=
  if goto s && waitForTimeout s then
    match rendered s with
    | Some d =>
        match completion (evaluate toLowerCase (Country.name country) (clock s) d) with
        | Returns bonds =>
            if close s then Returns (returnByValue bonds) else Throws
        | Throws => Throws
        end
    | None => Throws
    end
  else Throws.

Definition scrapeCountryBonds (s : Session) (country : Country.Config)
  : Completion (list BloombergBondData) :=
  if newPage s then
    match attempt s country with
    | Returns data => Returns data
    | Throws => if close s then Returns [] else Throws
    end
  else Throws.

(** The loop of [scrapeAllCountries] (lines 300-308) over the countries
    [cs], [allData] being what was collected before. *)
Fixpoint scrapeCountries (b : Browser) (cs : list Country.Config)
  (allData : list BloombergBondData) : Completion (list BloombergBondData) :=
  match cs with
  | [] => Returns allData
  | country :: rest =>
      match scrapeCountryBonds (pageFor b country) country with
      | Returns countryData => scrapeCountries b rest (allData ++ countryData)
      | Throws => Throws
      end
  end.

Definition scrapeAllCountries (b : Browser)
  : Completion (list BloombergBondData) :=
  if launch b then
    match scrapeCountries b COUNTRIES [] with
    | Returns allData => if closeBrowser b then Returns allData else Throws
    | Throws => Throws
    end
  else Throws.

(** ** The filter of [main] (lines 319-324) *)

Definition isTenYear (bond : BloombergBondData) : bool :=
  includes (name bond) (str "10 Year")
  && negb (includes (toLowerCase (name bond)) (str "muni"))
  && negb (includes (toLowerCase (name bond)) (str "inflation"))
  && negb (includes (name bond) (str "II")).

Definition results (allResults : list BloombergBondData)
  : list BloombergBondData :=
  filter isTenYear allResults.

End Run.

(** ** Sample inputs *)

Definition text (s : string) : Node := Text (str s).
Definition attr (k v : string) : jsstring * jsstring := (str k, str v).
Definition el (tag : string) (attrs : list (jsstring * jsstring))
  (cs : list Node) : Node :=
  Element (str tag) attrs cs.

Definition page (body : list Node) (rendering : string) : Document :=
  {| documentElement := el "html" [] [el "head" [] []; el "body" [] body];
     innerText := str rendering |}.

(** A clock that stands still. *)
Definition noon : nat -> jsstring := fun _ => str "2024-01-01T12:00:00.000Z".

(** One table: a header row Name, Coupon, Price, Yield and one data row. *)
Definition usHeader : Node :=
  el "tr" [] [el "th" [] [text "Name"]; el "th" [] [text "Coupon"];
              el "th" [] [text "Price"]; el "th" [] [text "Yield"]].

Definition usRow : Node :=
  el "tr" [] [el "td" [] [text "US 10 Year"]; el "td" [] [text "4.25%"];
              el "td" [] [text "98.50"]; el "td" [] [text "4.40%"]].

Definition usTableElement : Node := el "table" [] [usHeader; usRow].

Definition usTable : Document := page [usTableElement] "".

(** A record less its country and its time stamp. *)
Definition quote (b : BloombergBondData) : jsstring * list (option Number) :=
  (name b, [coupon b; price b; yield b; oneMonth b; oneYear b]).

Definition cell (s : string) : Node := el "span" [attr "role" "cell"] [text s].

(** A container that is no table: its class is "bond-table", its rows and
    cells carry ARIA roles. *)
Definition bondTableDiv : Node :=
  el "div" [attr "class" "bond-table"]
    [el "div" [attr "role" "row"] [cell "Name"; cell "Coupon"];
     el "div" [attr "role" "row"] [cell "US 10 Year"; cell "4.25%"]].

Definition bondTablePage : Document := page [bondTableDiv] "".

(** A table whose coupon cell reads "Infinity". *)
Definition infinityTable : Document :=
  page
    [el "table" []
       [el "tr" [] [el "th" [] [text "Name"]; el "th" [] [text "Coupon"]];
        el "tr" [] [el "td" [] [text "US 10 Year"];
                    el "td" [] [text "Infinity"]]]]
    "".

(** A page without tables or containers whose text is one line that quotes
    a coupon of zero. *)
Definition zeroCouponText : Document := page [] "Treasury 0.00% 99.80".

(** A page that renders [d] without incident. *)
Definition online (d : Document) : Session :=
  {| newPage := true; goto := true; waitForTimeout := true;
     rendered := Some d; clock := noon; close := true |}.

(** A page whose navigation times out. *)
Definition offline : Session :=
  {| newPage := true; goto := false; waitForTimeout := true;
     rendered := None; clock := noon; close := true |}.

(** A browser for which Germany cannot be reached and every other country
    renders [usTable]. *)
Definition germanyDown : Browser :=
  {| launch := true;
     pageFor := fun country =>
                  if eqs (Country.code country) (str "DE") then offline
                  else online usTable;
     closeBrowser := true |}.

Definition germany : Country.Config :=
  {| Country.name := str "Germany";
     Country.url := str "https://www.bloomberg.com/markets/rates-bonds/government-bonds/germany";
     Country.code := str "DE" |}.

(** The record of [usTable] for the country [c]. *)
Definition usTenYear (c : jsstring) : BloombergBondData :=
  {| country := c;
     name := str "US 10 Year";
     coupon := Some (nearest 4.25);
     price := Some (nearest 98.5);
     yield := Some (nearest 4.4);
     oneMonth := None;
     oneYear := None;
     scrapedAt := noon 0 |}.

(** A record with the name [n] and nothing else. *)
Definition named (n : jsstring) : BloombergBondData :=
  {| country := []; name := n; coupon := None; price := None; yield := None;
     oneMonth := None; oneYear := None; scrapedAt := [] |}.

(** The five numeric fields of a record. *)
Definition numericFields (b : BloombergBondData) : list (option Number) :=
  snd (quote b).

(** A field is null or holds a number other than NaN. *)
Definition notNaN (field : option Number) : Prop :=
  match field with
  | None => True
  | Some x => isNaN x = false
  end.

(** No numeric field of the record is NaN. *)
Definition neverNaN (bond : BloombergBondData) : Prop :=
  Forall notNaN (numericFields bond).

(** A field is null or holds a finite number. *)
Definition finiteOrNull (field : option Number) : Prop :=
  match field with
  | None => True
  | Some x => isFinite x = true
  end.

(** ** Notions used by the further properties of the scraper *)

(** A match of [\d+\.\d{1,4}]: digits, a point, one to four digits. *)
Definition isToken (tok : jsstring) : Prop :=
  exists ip fp,
    tok = ip ++ 46%N :: fp
    /\ ip <> [] /\ forallb isDigit ip = true
    /\ fp <> [] /\ (List.length fp <= 4)%nat /\ forallb isDigit fp = true.

(** A number above zero, an infinity included. *)
Definition isPositive (x : Number) : bool :=
  match x with
  | S754_finite false _ _ | S754_infinity false => true
  | _ => false
  end.

Definition positiveOrNull (field : option Number) : Prop :=
  match field with
  | None => True
  | Some x => isPositive x = true
  end.

(** A minus sign, or nothing. *)
Definition signChars (neg : bool) : jsstring := if neg then [45%N] else [].

(** The test of line 249 on a line of the page text. *)
Definition qualifies (toLowerCase : jsstring -> jsstring)
  (words : list jsstring) (line : jsstring) : bool :=
  (existsb (fun keyword => includes (toLowerCase line) keyword) words
   || includes line (str "%"))
  && (0 <? List.length (matchNumbers line))
  && (5 <? List.length line).

(** Every record carries the country, and the [k]-th record the [k]-th
    reading of the clock. *)
Definition stamped (countryName : jsstring) (now : nat -> jsstring)
  (bonds : list BloombergBondData) : Prop :=
  Forall (fun b => country b = countryName) bonds
  /\ map scrapedAt bonds = map now (seq 0 (List.length bonds)).

(** What [scrapeCountryBonds] gives the loop of [scrapeAllCountries] for a
    country, nothing when it throws. *)
Definition countryData (toLowerCase : jsstring -> jsstring)
  (returnByValue : list BloombergBondData -> list BloombergBondData)
  (b : Browser) (country : Country.Config) : list BloombergBondData :=
  match scrapeCountryBonds toLowerCase returnByValue (pageFor b country)
          country with
  | Returns data => data
  | Throws => []
  end.

(** A line as [textLines] gives them: not empty, trimmed, without a line
    feed. *)
Definition isLine (l : jsstring) : Prop :=
  l <> [] /\ trim l = l /\ ~ In 10%N l.

(** The record strategy 3 gives for [zeroCouponText]. *)
Definition zeroCouponRecord : BloombergBondData :=
  {| country := str "United States";
     name := str "Treasury 0.00% 99.80";
     coupon := None;
     price := Some (nearest 99.8);
     yield := None; oneMonth := None; oneYear := None;
     scrapedAt := noon 0 |}.

(** A table inside a cell of another table. *)
Definition innerTable : Node :=
  el "table" [] [el "tr" [] [el "td" [] [text "inner"]]].

Definition outerTable : Node :=
  el "table" [] [el "tr" [] [el "td" [] [innerTable]]].

Definition nestedTables : Document := page [outerTable] "".

(** ** The items API (src/app/api/agent1/route.ts)

    The array [data] of the module is the state; a handler takes it and
    gives it back with the response. A handler runs without interruption
    once [request.json()] has resolved. The [id] of an item is
    [data.length + 1] at its creation, an integer below 2^32 that a Number
    holds exactly; it is compared with the integer [parseInt] reads. *)

Module Route.

(** A value as [JSON.parse] gives it; an object holds its own properties,
    each key once. *)
#[warnings="-register-all"]
Inductive JSON :=
| JNull
| JBool (b : bool)
| JNumber (x : Number)
| JString (s : jsstring)
| JArray (elements : list JSON)
| JObject (properties : list (jsstring * JSON)).

(** ToBoolean *)
Definition truthyJSON (v : JSON) : bool :=
  match v with
  | JNull => false
  | JBool b => b
  | JNumber x => truthy x
  | JString s => negb (eqs s [])
  | JArray _ | JObject _ => true
  end.

Fixpoint property (key : jsstring) (ps : list (jsstring * JSON))
  : option JSON :=
  match ps with
  | [] => None
  | (k, v) :: r => if eqs k key then Some v else property key r
  end.

(** [v.key] for one of the keys [id], [name], [description] and a value
    [v] other than null: [None] is [undefined]. Strings, numbers, booleans
    and arrays have no such member. *)
Definition member (key : jsstring) (v : JSON) : option JSON :=
  match v with
  | JObject ps => property key ps
  | _ => None
  end.

(** ToBoolean of a member that may be [undefined]. *)
Definition given (v : option JSON) : bool :=
  match v with
  | Some x => truthyJSON x
  | None => false
  end.

(** *** parseInt with no radix *)

Definition isHexDigit (c : N) : bool :=
  isDigit c || ((97 <=? c)%N && (c <=? 102)%N)
  || ((65 <=? c)%N && (c <=? 70)%N).

Definition hexValue (c : N) : Z :=
  if isDigit c then Z.of_N (c - 48)
  else if (97 <=? c)%N then Z.of_N (c - 87)
  else Z.of_N (c - 55).

Definition radixValue (radix : Z) (ds : jsstring) : Z :=
  fold_left (fun a c => (radix * a + hexValue c)%Z) ds 0%Z.

(** The integer that [parseInt(s)] reads, [None] for NaN: leading white
    space and a sign are passed, [0x] or [0X] selects radix 16, and the
    digits up to the first other character are read. *)
Definition parseInt (s : jsstring) : option Z :=
  let (neg, s1) := scanSign (trimStart s) in
  let (radix, s2) :=
    match s1 with
    | z :: x :: r =>
        if (z =? 48)%N && ((x =? 120)%N || (x =? 88)%N) then (16%Z, r)
        else (10%Z, s1)
    | _ => (10%Z, s1)
    end in
  let ds :=
    takeWhile (if (radix =? 16)%Z then isHexDigit else isDigit) s2 in
  match ds with
  | [] => None
  | _ => Some (if neg then (- radixValue radix ds)%Z else radixValue radix ds)
  end.

(** *** The store *)

Record Item := {
  id : nat;
  name : JSON;
  description : JSON;
  createdAt : option jsstring;
  updatedAt : option jsstring
}.

Definition data0 : list Item :=
  [ {| id := 1; name := JString (str "Item 1");
       description := JString (str "First item");
       createdAt := None; updatedAt := None |};
    {| id := 2; name := JString (str "Item 2");
       description := JString (str "Second item");
       createdAt := None; updatedAt := None |} ].

(** The JSON of a response. *)
Inductive Body :=
| Error (error : jsstring)
| TheItem (item : Item)
| Listing (data : list Item) (count : nat)
| Done (message : jsstring) (data : Item).

Record Response := { status : nat; body : Body }.

Definition ok (b : Body) : Response := {| status := 200; body := b |}.
Definition failed (code : nat) (msg : string) : Response :=
  {| status := code; body := Error (str msg) |}.

(** [item.id === n] for what [parseInt] read. *)
Definition hasId (n : option Z) (item : Item) : bool :=
  match n with
  | Some z => (Z.of_nat (id item) =? z)%Z
  | None => false
  end.

(** [l.findIndex(p)] together with the element found, [None] for -1. *)
Fixpoint findIndex (A : Type) (p : A -> bool) (l : list A)
  : option (nat * A) :=
  match l with
  | [] => None
  | x :: r =>
      if p x then Some (0%nat, x)
      else match findIndex p r with
           | Some (i, y) => Some (S i, y)
           | None => None
           end
  end.

(** [l[i] = x] for an index within [l]. *)
Fixpoint assign (A : Type) (i : nat) (x : A) (l : list A) : list A :=
  match l, i with
  | [], _ => []
  | _ :: r, O => x :: r
  | y :: r, S k => y :: assign k x r
  end.

(** What is left after [l.splice(i, 1)]. *)
Definition splice1 (A : Type) (i : nat) (l : list A) : list A :=
  firstn i l ++ skipn (S i) l.

(** The query parameter [id] when it is there and not empty. *)
Definition present (id : option jsstring) : option jsstring :=
  match id with
  | Some [] => None
  | other => other
  end.

Definition GET (data : list Item) (idParam : option jsstring) : Response :=
  match present idParam with
  | Some s =>
      match find (hasId (parseInt s)) data with
      | Some item => ok (TheItem item)
      | None => failed 404 "Item not found"
      end
  | None => ok (Listing data (List.length data))
  end.

(** [request.json()] rejects ([None]) or gives a value. *)
Definition POST (data : list Item) (now : jsstring) (json : option JSON)
  : list Item * Response :=
  match json with
  | None | Some JNull => (data, failed 500 "Failed to create item")
  | Some body =>
      match member (str "name") body, member (str "description") body with
      | Some n, Some d =>
          if truthyJSON n && truthyJSON d then
            let newItem :=
              {| id := List.length data + 1; name := n; description := d;
                 createdAt := Some now; updatedAt := None |} in
            (data ++ [newItem],
             {| status := 201;
                body := Done (str "Item created successfully") newItem |})
          else (data, failed 400 "Name and description are required")
      | _, _ => (data, failed 400 "Name and description are required")
      end
  end.

Definition DELETE (data : list Item) (idParam : option jsstring)
  : list Item * Response :=
  match present idParam with
  | None => (data, failed 400 "ID is required for deletion")
  | Some s =>
      match findIndex (hasId (parseInt s)) data with
      | None => (data, failed 404 "Item not found")
      | Some (itemIndex, deletedItem) =>
          (splice1 itemIndex data,
           ok (Done (str "Item deleted successfully") deletedItem))
      end
  end.

Section Put.

(** Number::toString, the decimal form of a number. *)
Variable numberToString : Number -> jsstring.

(** ToString of a value; it throws on an object with a property of its own
    named [toString], which is not callable. An array is joined with
    commas, null elements giving the empty string. *)
Fixpoint toString (v : JSON) : Completion jsstring :=
  match v with
  | JNull => Returns (str "null")
  | JBool b => Returns (str (if b then "true" else "false"))
  | JNumber x => Returns (numberToString x)
  | JString s => Returns s
  | JArray l =>
      (fix elements (l : list JSON) : Completion jsstring :=
         match l with
         | [] => Returns []
         | x :: r =>
             match (match x with JNull => Returns [] | _ => toString x end) with
             | Returns s =>
                 match r with
                 | [] => Returns s
                 | _ =>
                     match elements r with
                     | Returns t => Returns (s ++ str "," ++ t)
                     | Throws => Throws
                     end
                 end
             | Throws => Throws
             end
         end) l
  | JObject ps =>
      match property (str "toString") ps with
      | Some _ => Throws
      | None => Returns (str "[object Object]")
      end
  end.

(** The object that replaces [old]: its members, [name] and [description]
    when the body gives truthy ones, and [updatedAt]. *)
Definition update (old : Item) (body : JSON) (now : jsstring) : Item :=
  {| id := id old;
     name := match member (str "name") body with
             | Some n => if truthyJSON n then n else name old
             | None => name old
             end;
     description := match member (str "description") body with
                    | Some d => if truthyJSON d then d else description old
                    | None => description old
                    end;
     createdAt := createdAt old;
     updatedAt := Some now |}.

(** The callback of [findIndex] evaluates [parseInt(id)], and with it
    ToString of [id], once for each item it visits: with no item nothing is
    evaluated and nothing is thrown. *)
Definition PUT (data : list Item) (now : jsstring) (json : option JSON)
  : list Item * Response :=
  match json with
  | None | Some JNull => (data, failed 500 "Failed to update item")
  | Some body =>
      if given (member (str "id") body) then
        match data, toString (match member (str "id") body with
                              | Some v => v
                              | None => JNull
                              end) with
        | [], _ => (data, failed 404 "Item not found")
        | _ :: _, Throws => (data, failed 500 "Failed to update item")
        | _ :: _, Returns s =>
            match findIndex (hasId (parseInt s)) data with
            | None => (data, failed 404 "Item not found")
            | Some (itemIndex, old) =>
                (assign itemIndex (update old body now) data,
                 ok (Done (str "Item updated successfully")
                       (update old body now)))
            end
        end
      else (data, failed 400 "ID is required for update")
  end.

Inductive Request :=
| Get (id : option jsstring)
| Post (now : jsstring) (json : option JSON)
| Put (now : jsstring) (json : option JSON)
| Delete (id : option jsstring).

Definition handle (data : list Item) (r : Request) : list Item * Response :=
  match r with
  | Get i => (data, GET data i)
  | Post t j => POST data t j
  | Put t j => PUT data t j
  | Delete i => DELETE data i
  end.

(** The store after the requests [rs], served one after the other. *)
Definition serve (data : list Item) (rs : list Request) : list Item :=
  fold_left (fun d r => fst (handle d r)) rs data.

End Put.

(** The digits of a decimal numeral of the Standard Library. *)
Fixpoint digitsOf (u : Decimal.uint) : jsstring :=
  match u with
  | Decimal.Nil => []
  | Decimal.D0 u => 48%N :: digitsOf u
  | Decimal.D1 u => 49%N :: digitsOf u
  | Decimal.D2 u => 50%N :: digitsOf u
  | Decimal.D3 u => 51%N :: digitsOf u
  | Decimal.D4 u => 52%N :: digitsOf u
  | Decimal.D5 u => 53%N :: digitsOf u
  | Decimal.D6 u => 54%N :: digitsOf u
  | Decimal.D7 u => 55%N :: digitsOf u
  | Decimal.D8 u => 56%N :: digitsOf u
  | Decimal.D9 u => 57%N :: digitsOf u
  end.

(** A natural number written in decimal. *)
Definition decimal (n : nat) : jsstring := digitsOf (Nat.to_uint n).


(** The ids are 1, 2, ... in the order of the array. *)
Definition dense (data : list Item) : Prop :=
  map id data = seq 1 (List.length data).

Definition isDelete (r : Request) : bool :=
  match r with
  | Delete _ => true
  | _ => false
  end.

(** A body with the given members, and the body of a create request. *)
Definition object (members : list (string * JSON)) : JSON :=
  JObject (map (fun kv => (str (fst kv), snd kv)) members).

Definition thirdItem : JSON :=
  object [("name"%string, JString (str "Item 3"));
          ("description"%string, JString (str "Third item"))].

End Route.

(** * Properties *)

(** ** Strings *)

Lemma eqs_spec (a b : jsstring) : eqs a b = true <-> a = b.
Proof.
  revert b; induction a as [|x a IH]; intros [|y b]; simpl;
    try (split; [discriminate | discriminate]); try tauto.
  rewrite andb_true_iff, N.eqb_eq, IH.
  split; [intros [-> ->]; reflexivity | intros H; inversion H; auto].
Qed.

Lemma eqs_refl (a : jsstring) : eqs a a = true.
Proof. apply eqs_spec; reflexivity. Qed.

Lemma startsWith_spec (s p : jsstring) :
  startsWith s p = true <-> exists post, s = p ++ post.
Proof.
  revert s; induction p as [|x p IH]; intros s; simpl.
  - split; [intros _; exists s; reflexivity | reflexivity].
  - destruct s as [|y s].
    + split; [discriminate | intros [post H]; discriminate].
    + rewrite andb_true_iff, N.eqb_eq, IH. split.
      * intros [-> [post ->]]; exists post; reflexivity.
      * intros [post H]; inversion H; subst; split; [reflexivity|].
        exists post; reflexivity.
Qed.

(** [includes] decides the substring relation. *)
Lemma includes_spec (s p : jsstring) :
  includes s p = true <-> occursIn p s.
Proof.
  unfold occursIn. induction s as [|c s IH].
  - simpl. rewrite orb_false_r, startsWith_spec. split.
    + intros [post H]; exists [], post; exact H.
    + intros [pre [post H]]. destruct pre; simpl in H.
      * exists post; exact H.
      * discriminate.
  - cbn [includes]. rewrite orb_true_iff, startsWith_spec, IH. split.
    + intros [[post H] | [pre [post H]]].
      * exists [], post; exact H.
      * exists (c :: pre), post; simpl; rewrite H; reflexivity.
    + intros [pre [post H]]. destruct pre as [|d pre]; simpl in H.
      * left; exists post; exact H.
      * right; inversion H; subst. exists pre, post; reflexivity.
Qed.

(** ** Text content *)

Lemma Node_induction (P : Node -> Prop) :
  (forall d, P (Text d)) ->
  (forall name attrs cs, Forall P cs -> P (Element name attrs cs)) ->
  forall n, P n.
Proof.
  intros HT HE.
  refine (fix IH (n : Node) : P n :=
            match n with
            | Text d => HT d
            | Element name attrs cs =>
                HE name attrs cs
                  ((fix all (l : list Node) : Forall P l :=
                      match l with
                      | [] => Forall_nil P
                      | c :: l' => Forall_cons c (IH c) (all l')
                      end) cs)
            end).
Qed.

Lemma occursIn_refl (s : jsstring) : occursIn s s.
Proof. exists [], []. rewrite app_nil_r. reflexivity. Qed.

Lemma occursIn_trans (a b c : jsstring) :
  occursIn a b -> occursIn b c -> occursIn a c.
Proof.
  intros [p1 [q1 ->]] [p2 [q2 ->]].
  exists (p2 ++ p1), (q1 ++ q2). rewrite <- !app_assoc. reflexivity.
Qed.

Lemma occursIn_map (f : N -> N) (p s : jsstring) :
  occursIn p s -> occursIn (map f p) (map f s).
Proof.
  intros [pre [post ->]]. exists (map f pre), (map f post).
  rewrite !map_app. reflexivity.
Qed.

Lemma dropWhile_suffix (A : Type) (f : A -> bool) (l : list A) :
  exists pre, l = pre ++ dropWhile f l.
Proof.
  induction l as [|x l [pre IH]]; simpl.
  - exists []. reflexivity.
  - destruct (f x).
    + exists (x :: pre). simpl. rewrite <- IH. reflexivity.
    + exists []. reflexivity.
Qed.

Lemma occursIn_trim (s : jsstring) : occursIn (trim s) s.
Proof.
  unfold trim, trimEnd, trimStart.
  destruct (dropWhile_suffix isWhiteSpace s) as [pre E].
  destruct (dropWhile_suffix isWhiteSpace (rev (dropWhile isWhiteSpace s)))
    as [pre' E'].
  exists pre, (rev pre').
  rewrite <- rev_app_distr, <- E', rev_involutive. exact E.
Qed.

Lemma textContent_child (cs : list Node) (c : Node) :
  In c cs -> occursIn (textContent c) (flat_map textContent cs).
Proof.
  intros H. apply in_split in H. destruct H as [l1 [l2 ->]].
  exists (flat_map textContent l1), (flat_map textContent l2).
  rewrite flat_map_app. reflexivity.
Qed.

Lemma textContent_descendant (n x : Node) :
  In x (descendants n) -> occursIn (textContent x) (textContent n).
Proof.
  revert x. induction n as [d|name attrs cs IH] using Node_induction;
    intros x; simpl.
  - intros [].
  - intros H. apply in_flat_map in H. destruct H as [c [Hc Hx]].
    apply occursIn_trans with (textContent c).
    + destruct Hx as [<- | Hx]; [apply occursIn_refl|].
      rewrite Forall_forall in IH. apply (IH c Hc x Hx).
    + apply textContent_child, Hc.
Qed.

Lemma cellText_nth (cells : list Node) (k : nat) :
  cellText cells k = nth k (map (fun c => trim (textContent c)) cells) [].
Proof.
  unfold cellText. revert k. induction cells as [|c cells IH]; intros [|k];
    simpl; auto.
Qed.

(** ** The numeric normaliser *)

(** C2. [parseNumeric] maps the empty string, a string of blanks, "--" and
    "N/A" to null; "1,234.50%" to 1234.5 and "$98.75" to 98.75, which are
    the exact values of the results; and "abc" to null. *)
Theorem parseNumeric_examples :
  parseNumeric (str "") = None
  /\ parseNumeric (str "  ") = None
  /\ parseNumeric (str "--") = None
  /\ parseNumeric (str "N/A") = None
  /\ parseNumeric (str "1,234.50%") = Some (nearest 1234.5)
  /\ exactly (nearest 1234.5) 1234.5
  /\ parseNumeric (str "$98.75") = Some (nearest 98.75)
  /\ exactly (nearest 98.75) 98.75
  /\ parseFloat (str "abc") = NaN
  /\ parseNumeric (str "abc") = None.
Proof.
  repeat split; vm_compute; reflexivity.
Qed.

(** ** The filter of [main] *)

Section Filter.

Variable toLowerCase : jsstring -> jsstring.
Hypothesis toLowerCase_ascii :
  forall s, isASCII s = true -> toLowerCase s = toLowerCaseASCII s.

Lemma isTenYear_spec (bond : BloombergBondData) :
  isTenYear toLowerCase bond = true <->
  occursIn (str "10 Year") (name bond)
  /\ ~ occursIn (str "muni") (toLowerCase (name bond))
  /\ ~ occursIn (str "inflation") (toLowerCase (name bond))
  /\ ~ occursIn (str "II") (name bond).
Proof.
  unfold isTenYear.
  rewrite !andb_true_iff, !negb_true_iff, <- !not_true_iff_false,
    !includes_spec.
  tauto.
Qed.

(** C4. A record is in the output of the filter exactly when it is in the
    input, its name contains "10 Year", the lower-cased name contains
    neither "muni" nor "inflation", and the name does not contain "II";
    a kept record stays between what is kept of the records before it and
    what is kept of the records after it, a dropped one leaves the rest as
    it is; and of four records named "US 10 Year",
    "US 10 Year TIPS (Inflation)", "UK Muni 10 Year" and "US 10 Year II"
    only the first is kept. *)
Theorem results_spec :
  (forall allResults bond,
      In bond (results toLowerCase allResults) <->
      In bond allResults
      /\ occursIn (str "10 Year") (name bond)
      /\ ~ occursIn (str "muni") (toLowerCase (name bond))
      /\ ~ occursIn (str "inflation") (toLowerCase (name bond))
      /\ ~ occursIn (str "II") (name bond))
  /\ (forall before bond after,
         isTenYear toLowerCase bond = true ->
         results toLowerCase (before ++ bond :: after)
         = results toLowerCase before ++ bond :: results toLowerCase after)
  /\ (forall before bond after,
         isTenYear toLowerCase bond = false ->
         results toLowerCase (before ++ bond :: after)
         = results toLowerCase before ++ results toLowerCase after)
  /\ (forall named : jsstring -> BloombergBondData,
         (forall n, name (named n) = n) ->
         results toLowerCase
           [named (str "US 10 Year");
            named (str "US 10 Year TIPS (Inflation)");
            named (str "UK Muni 10 Year");
            named (str "US 10 Year II")]
         = [named (str "US 10 Year")]).
Proof.
  split; [|split; [|split]].
  - intros allResults bond. unfold results.
    rewrite filter_In, isTenYear_spec. tauto.
  - intros before bond after H. unfold results.
    rewrite filter_app. simpl. rewrite H. reflexivity.
  - intros before bond after H. unfold results.
    rewrite filter_app. simpl. rewrite H. reflexivity.
  - intros named Hname. unfold results, isTenYear.
    cbn [filter]. rewrite !Hname.
    rewrite !toLowerCase_ascii by (vm_compute; reflexivity).
    vm_compute. reflexivity.
Qed.

(** C8. Filtering the output of the filter changes nothing. *)
Theorem results_idempotent (allResults : list BloombergBondData) :
  results toLowerCase (results toLowerCase allResults)
  = results toLowerCase allResults.
Proof.
  unfold results.
  induction allResults as [|bond rest IH]; simpl; [reflexivity|].
  destruct (isTenYear toLowerCase bond) eqn:E; simpl.
  - rewrite E, IH. reflexivity.
  - exact IH.
Qed.

End Filter.

(** ** The callback of [page.evaluate] *)

Section Extraction.

Variable toLowerCase : jsstring -> jsstring.
Hypothesis toLowerCase_ascii :
  forall s, isASCII s = true -> toLowerCase s = toLowerCaseASCII s.

Variable countryName : jsstring.
Variable now : nat -> jsstring.

Lemma length_zero (A : Type) (l : list A) :
  (List.length l =? 0) = true <-> l = [].
Proof.
  destruct l; simpl; split; intros H; try reflexivity; discriminate.
Qed.

(** C1. The value of the callback comes from one strategy. When the tables
    give a record, the value is what the tables give and neither later
    strategy is entered; strategy 2 is entered exactly when the tables give
    nothing, and then, if it gives a record, the value is what it gives;
    strategy 3 is entered exactly when both give nothing, and then the
    callback completes as strategy 3 does. *)
Theorem evaluate_one_tier (d : Document) :
  let tier1 := strategy1 toLowerCase countryName now d [] in
  let tier2 := strategy2 countryName now d [] in
  let tier3 := strategy3 toLowerCase countryName now d [] in
  let run := evaluate toLowerCase countryName now d in
  (tier1 <> [] -> completion run = Returns tier1 /\ console run = [])
  /\ (tier1 = [] -> tier2 <> [] ->
      completion run = Returns tier2 /\ console run = [tryingSelectors])
  /\ (tier1 = [] -> tier2 = [] ->
      completion run = tier3
      /\ console run = [tryingSelectors; tryingText])
  /\ (In tryingSelectors (console run) <-> tier1 = [])
  /\ (In tryingText (console run) <-> tier1 = [] /\ tier2 = []).
Proof.
  assert (Hne : tryingSelectors <> tryingText) by (vm_compute; discriminate).
  cbv zeta. unfold evaluate.
  destruct (strategy1 toLowerCase countryName now d []) as [|b1 t1] eqn:E1;
    [destruct (strategy2 countryName now d []) as [|b2 t2] eqn:E2|];
    cbn [List.length Nat.eqb console completion app In];
    intuition (congruence || discriminate).
Qed.

(** C3. On a document with one table, whose rows are a header row with the
    cells Name, Coupon, Price, Yield and one data row with the cells
    "US 10 Year", "4.25%", "98.50", "4.40%", strategy 1 gives one record:
    that name, coupon 4.25, price 98.5, yield 4.4, and [oneMonth] and
    [oneYear], whose cells are missing, null; 4.25 and 98.5 are the exact
    values of the numbers stored. The text of the header row is ASCII. *)
Theorem table_example (d : Document) (t header row : Node) :
  documentQuerySelectorAll [ByType (str "table")] d = [t] ->
  querySelectorAll [ByType (str "tr")] t = [header; row] ->
  cellTexts header = map str ["Name"; "Coupon"; "Price"; "Yield"]%string ->
  isASCII (textContent header) = true ->
  cellTexts row = map str ["US 10 Year"; "4.25%"; "98.50"; "4.40%"]%string ->
  strategy1 toLowerCase countryName now d []
  = [ {| country := countryName;
         name := str "US 10 Year";
         coupon := Some (nearest 4.25);
         price := Some (nearest 98.5);
         yield := Some (nearest 4.4);
         oneMonth := None;
         oneYear := None;
         scrapedAt := now 0 |} ]
  /\ exactly (nearest 4.25) 4.25
  /\ exactly (nearest 98.5) 98.5.
Proof.
  intros Ht Hrows Hh Hascii Hrow.
  split; [|split; vm_compute; reflexivity].
  assert (Hname : occursIn (str "Name") (textContent header)).
  { unfold cellTexts in Hh.
    destruct (querySelectorAll tableCells header) as [|c0 cells] eqn:Q;
      [discriminate Hh|].
    injection Hh as H0 _.
    apply occursIn_trans with (textContent c0).
    - rewrite <- H0. apply occursIn_trim.
    - apply textContent_descendant.
      assert (Hin : In c0 (querySelectorAll tableCells header))
        by (rewrite Q; left; reflexivity).
      apply filter_In in Hin. apply Hin. }
  assert (Hhead : isBondHeader (toLowerCase (textContent header)) = true).
  { rewrite (toLowerCase_ascii _ Hascii).
    unfold isBondHeader, headerWords. cbn [map existsb].
    apply orb_true_iff. left. apply includes_spec.
    apply (occursIn_map lowerUnit) in Hname. exact Hname. }
  unfold strategy1. rewrite Ht. cbn [fold_left]. unfold table.
  rewrite Hrows. cbn [List.length Nat.ltb Nat.leb tl fold_left].
  rewrite Hhead. unfold tableRow.
  unfold rowRecord. rewrite !cellText_nth.
  fold (cellTexts row). 
  assert (L : List.length (querySelectorAll tableCells row) = 4%nat).
  { unfold cellTexts in Hrow. apply (f_equal (@List.length _)) in Hrow.
    rewrite length_map in Hrow. exact Hrow. }
  rewrite L, Hrow.
  replace (validTableName toLowerCase (nth 0 (map str ["US 10 Year"; "4.25%"; "98.50"; "4.40%"]%string) [])) with true.
  - vm_compute. reflexivity.
  - unfold validTableName. cbn [nth map].
    rewrite !toLowerCase_ascii by (vm_compute; reflexivity).
    vm_compute. reflexivity.
Qed.

End Extraction.

(** ** Strategy 2 emits a row once for each selector its container matches *)

Lemma fold_left_emit (A X B : Type) (step : list A -> X -> list A)
  (q : A -> B) (emit : X -> list B) :
  (forall acc x, map q (step acc x) = map q acc ++ emit x) ->
  forall xs acc,
    map q (fold_left step xs acc) = map q acc ++ flat_map emit xs.
Proof.
  intros Hstep xs. induction xs as [|x xs IH]; intros acc; simpl.
  - rewrite app_nil_r. reflexivity.
  - rewrite IH, Hstep, <- app_assoc. reflexivity.
Qed.

Section Selectors.

Variable countryName : jsstring.
Variable now : nat -> jsstring.

Lemma selectorRow_quote (bonds : list BloombergBondData) (row : Node) :
  map quote (selectorRow countryName now bonds row)
  = map quote bonds ++ map quote (selectorRow countryName now [] row).
Proof.
  unfold selectorRow.
  destruct (2 <=? _); [|simpl; rewrite app_nil_r; reflexivity].
  destruct (validSelectorName _); [|simpl; rewrite app_nil_r; reflexivity].
  rewrite map_app. reflexivity.
Qed.

Lemma selectorElement_quote (bonds : list BloombergBondData) (e : Node) :
  map quote (selectorElement countryName now bonds e)
  = map quote bonds ++ map quote (selectorElement countryName now [] e).
Proof.
  unfold selectorElement.
  rewrite !(fold_left_emit (selectorRow countryName now) quote
              (fun row => map quote (selectorRow countryName now [] row))
              selectorRow_quote).
  reflexivity.
Qed.

(** C10. What strategy 2 gives is, time stamps apart, the rows of every
    element matched by the first selector, then those of every element
    matched by the second, and so on, an element being taken again for each
    selector it matches. The element of class "bond-table" matches
    [.bond-table], [[class*="table"]] and [[class*="bond"]]; on the page made
    of it the tables give nothing, and strategy 2 gives its one data row
    three times. *)
Theorem selectors_repeat_rows :
  (forall d,
      map quote (strategy2 countryName now d [])
      = flat_map
          (fun selector =>
             flat_map
               (fun element =>
                  map quote (selectorElement countryName now [] element))
               (documentQuerySelectorAll selector d))
          bloombergSelectors)
  /\ matches [ByClass (str "bond-table")] bondTableDiv = true
  /\ matches [AttrContains (str "class") (str "table")] bondTableDiv = true
  /\ matches [AttrContains (str "class") (str "bond")] bondTableDiv = true
  /\ (forall toLowerCase,
         strategy1 toLowerCase countryName now bondTablePage [] = [])
  /\ map quote (selectorElement countryName now [] bondTableDiv)
     = [(str "US 10 Year", [Some (nearest 4.25); None; None; None; None])]
  /\ map quote (strategy2 countryName now bondTablePage [])
     = [(str "US 10 Year", [Some (nearest 4.25); None; None; None; None]);
        (str "US 10 Year", [Some (nearest 4.25); None; None; None; None]);
        (str "US 10 Year", [Some (nearest 4.25); None; None; None; None])]
  /\ map scrapedAt (strategy2 countryName now bondTablePage [])
     = [now 0; now 1; now 2].
Proof.
  split.
  { intros d. unfold strategy2.
    rewrite (fold_left_emit
               (fun bonds selector =>
                  fold_left (selectorElement countryName now)
                    (documentQuerySelectorAll selector d) bonds)
               quote
               (fun selector =>
                  flat_map
                    (fun element =>
                       map quote (selectorElement countryName now [] element))
                    (documentQuerySelectorAll selector d))).
    - reflexivity.
    - intros acc selector.
      apply (fold_left_emit (selectorElement countryName now) quote
               (fun element =>
                  map quote (selectorElement countryName now [] element))
               selectorElement_quote). }
  repeat split; vm_compute; reflexivity.
Qed.

End Selectors.

(** ** No field is NaN *)

Lemma fold_left_Forall (A X : Type) (step : list A -> X -> list A)
  (P : A -> Prop) :
  (forall acc x, Forall P acc -> Forall P (step acc x)) ->
  forall xs acc, Forall P acc -> Forall P (fold_left step xs acc).
Proof.
  intros Hstep xs. induction xs as [|x xs IH]; intros acc Hacc; simpl.
  - exact Hacc.
  - apply IH, Hstep, Hacc.
Qed.

Lemma parseNumeric_notNaN (t : jsstring) : notNaN (parseNumeric t).
Proof.
  unfold parseNumeric.
  destruct (_ || _); [exact I|].
  destruct (isNaN _) eqn:E; [exact I | exact E].
Qed.

Lemma tokenValue_notNaN (tokens : list jsstring) (k : nat) :
  notNaN (tokenValue tokens k).
Proof.
  unfold tokenValue. destruct (nth_error tokens k) as [tok|]; [|exact I].
  cbv zeta. destruct (parseFloat tok); simpl; auto.
Qed.

Section NeverNaN.

Variable toLowerCase : jsstring -> jsstring.
Variable countryName : jsstring.
Variable now : nat -> jsstring.

Lemma rowRecord_sound (n : jsstring) (cells : list Node) (t : jsstring) :
  neverNaN (rowRecord countryName n cells t).
Proof.
  unfold neverNaN, numericFields, quote, rowRecord; simpl.
  repeat constructor; apply parseNumeric_notNaN.
Qed.

Lemma snoc_sound (bonds : list BloombergBondData) (b : BloombergBondData) :
  Forall neverNaN bonds -> neverNaN b -> Forall neverNaN (bonds ++ [b]).
Proof.
  intros H Hb. apply Forall_app. split; [exact H | constructor; auto].
Qed.

Lemma strategy1_sound (d : Document) (bonds : list BloombergBondData) :
  Forall neverNaN bonds ->
  Forall neverNaN (strategy1 toLowerCase countryName now d bonds).
Proof.
  unfold strategy1. apply fold_left_Forall. clear bonds.
  intros acc t Hacc. unfold table.
  destruct (_ <? 2); [exact Hacc|].
  destruct (isBondHeader _); [|exact Hacc].
  revert Hacc. apply fold_left_Forall. clear acc.
  intros acc row Hacc. unfold tableRow.
  destruct (2 <=? _); [|exact Hacc].
  destruct (validTableName _ _); [|exact Hacc].
  apply snoc_sound; [exact Hacc | apply rowRecord_sound].
Qed.

Lemma strategy2_sound (d : Document) (bonds : list BloombergBondData) :
  Forall neverNaN bonds -> Forall neverNaN (strategy2 countryName now d bonds).
Proof.
  unfold strategy2. apply fold_left_Forall. clear bonds.
  intros acc selector. apply fold_left_Forall. clear acc.
  intros acc element. unfold selectorElement.
  apply fold_left_Forall. clear acc.
  intros acc row Hacc. unfold selectorRow.
  destruct (2 <=? _); [|exact Hacc].
  destruct (validSelectorName _); [|exact Hacc].
  apply snoc_sound; [exact Hacc | apply rowRecord_sound].
Qed.

Lemma strategy3_sound (d : Document) (bonds out : list BloombergBondData) :
  Forall neverNaN bonds ->
  strategy3 toLowerCase countryName now d bonds = Returns out ->
  Forall neverNaN out.
Proof.
  unfold strategy3. intros Hb.
  destruct (keywords countryName) as [words|].
  - intros H. injection H as <-. revert Hb. apply fold_left_Forall.
    clear bonds. intros acc i Hacc. unfold textLine.
    destruct (_ && _); [|exact Hacc].
    destruct (1 <=? _); [|exact Hacc].
    apply snoc_sound; [exact Hacc|].
    unfold neverNaN, numericFields, quote; simpl.
    repeat constructor; apply tokenValue_notNaN.
  - destruct (textLines _); [|discriminate].
    intros H. injection H as <-. exact Hb.
Qed.

(** C6, amended. In every record that one of the three strategies gives,
    each of the five numeric fields is null or a number other than NaN (it
    may be an infinity). *)
Theorem fields_never_NaN (d : Document) (bond : BloombergBondData) :
  In bond (strategy1 toLowerCase countryName now d [])
  \/ In bond (strategy2 countryName now d [])
  \/ (exists out,
         strategy3 toLowerCase countryName now d [] = Returns out
         /\ In bond out) ->
  notNaN (coupon bond) /\ notNaN (price bond) /\ notNaN (yield bond)
  /\ notNaN (oneMonth bond) /\ notNaN (oneYear bond).
Proof.
  intros H.
  assert (Hs : neverNaN bond).
  { destruct H as [H | [H | [out [E H]]]].
    - exact (proj1 (Forall_forall _ _)
               (strategy1_sound d (Forall_nil _)) _ H).
    - exact (proj1 (Forall_forall _ _)
               (strategy2_sound d (Forall_nil _)) _ H).
    - exact (proj1 (Forall_forall _ _)
               (strategy3_sound d (Forall_nil _) E) _ H). }
  unfold neverNaN, numericFields, quote in Hs; simpl in Hs.
  repeat match goal with
         | H : Forall _ (_ :: _) |- _ => inversion H; clear H; subst
         end.
  tauto.
Qed.

End NeverNaN.

(** C6 as stated fails: on a table whose coupon cell reads "Infinity" the
    record given by strategy 1 has a coupon that is not finite. *)
Lemma infinite_coupon :
  strategy1 toLowerCaseASCII (str "United States") noon infinityTable []
  = [ {| country := str "United States";
         name := str "US 10 Year";
         coupon := Some (S754_infinity false);
         price := None; yield := None; oneMonth := None; oneYear := None;
         scrapedAt := noon 0 |} ]
  /\ ~ Forall (fun bond => Forall finiteOrNull (numericFields bond))
         (strategy1 toLowerCaseASCII (str "United States") noon
            infinityTable []).
Proof.
  split; [vm_compute; reflexivity|].
  intros H. apply Forall_inv in H. apply Forall_inv in H.
  vm_compute in H. discriminate H.
Qed.

(** ** Strategy 3 and tokens that read as zero *)

Lemma tokenValue_None (tokens : list jsstring) (k : nat) :
  tokenValue tokens k = None <->
  (List.length tokens <= k)%nat
  \/ exists tok, nth_error tokens k = Some tok
                 /\ truthy (parseFloat tok) = false.
Proof.
  unfold tokenValue. split.
  - destruct (nth_error tokens k) as [tok|] eqn:E.
    + cbv zeta. destruct (truthy (parseFloat tok)) eqn:T; [discriminate|].
      intros _. right. exists tok. auto.
    + intros _. left. apply nth_error_None. exact E.
  - intros [H | [tok [E T]]].
    + apply nth_error_None in H. rewrite H. reflexivity.
    + rewrite E. cbv zeta. rewrite T. reflexivity.
Qed.

(** C5, at the failing input. The page text is the one line
    "Treasury 0.00% 99.80" and the country is the United States. The window
    of the line holds the two tokens "0.00" and "99.80", yet the record has
    no coupon: [parseFloat("0.00") || null] is null. The price is the second
    token. [parseNumeric], which strategies 1 and 2 use, reads "0.00" as 0. *)
Theorem zero_token_is_dropped :
  matchNumbers (contextOf (textLines (innerText zeroCouponText)) 0)
  = [str "0.00"; str "99.80"]
  /\ strategy3 toLowerCaseASCII (str "United States") noon zeroCouponText []
     = Returns
         [ {| country := str "United States";
              name := str "Treasury 0.00% 99.80";
              coupon := None;
              price := Some (nearest 99.8);
              yield := None; oneMonth := None; oneYear := None;
              scrapedAt := noon 0 |} ]
  /\ parseNumeric (str "0.00") = Some (S754_zero false).
Proof.
  repeat split; vm_compute; reflexivity.
Qed.

(** ** Failures of the browser *)

Section Failures.

Variable toLowerCase : jsstring -> jsstring.
Variable returnByValue : list BloombergBondData -> list BloombergBondData.

Lemma attempt_fails (s : Session) (country : Country.Config) :
  goto s = false \/ waitForTimeout s = false \/ rendered s = None ->
  attempt toLowerCase returnByValue s country = Throws.
Proof.
  unfold attempt. intros [H | [H | H]]; rewrite H.
  - reflexivity.
  - rewrite andb_false_r. reflexivity.
  - destruct (goto s && waitForTimeout s); reflexivity.
Qed.

Lemma scrapeCountries_outputs (b : Browser)
  (out : Country.Config -> list BloombergBondData)
  (cs : list Country.Config) (allData : list BloombergBondData) :
  (forall c, In c cs ->
             scrapeCountryBonds toLowerCase returnByValue (pageFor b c) c
             = Returns (out c)) ->
  scrapeCountries toLowerCase returnByValue b cs allData
  = Returns (allData ++ flat_map out cs).
Proof.
  revert allData. induction cs as [|c cs IH]; intros allData H; simpl.
  - rewrite app_nil_r. reflexivity.
  - rewrite (H c (or_introl eq_refl)).
    rewrite IH, <- app_assoc; [reflexivity|].
    intros c' Hc'. apply H. right. exact Hc'.
Qed.

(** C7. When the page of a country can be opened and closed but navigation
    fails ([page.goto] rejects), or the wait or [page.evaluate] rejects,
    [scrapeCountryBonds] returns the empty array and does not throw; the
    run over the countries then ends as the run without that country does.
    When the other countries return their records, the loop returns what
    was collected before followed by the records of the countries before
    the failed one and of those after it, in order, and so does
    [scrapeAllCountries] for a failed country of [COUNTRIES]. *)
Theorem navigation_failure_is_empty (b : Browser) (country : Country.Config) :
  newPage (pageFor b country) = true ->
  close (pageFor b country) = true ->
  goto (pageFor b country) = false
  \/ waitForTimeout (pageFor b country) = false
  \/ rendered (pageFor b country) = None ->
  scrapeCountryBonds toLowerCase returnByValue (pageFor b country) country
  = Returns []
  /\ (forall before after allData,
         scrapeCountries toLowerCase returnByValue b
           (before ++ country :: after) allData
         = scrapeCountries toLowerCase returnByValue b (before ++ after)
             allData)
  /\ (forall out before after allData,
         (forall c, In c (before ++ after) ->
                    scrapeCountryBonds toLowerCase returnByValue
                      (pageFor b c) c
                    = Returns (out c)) ->
         scrapeCountries toLowerCase returnByValue b
           (before ++ country :: after) allData
         = Returns (allData ++ flat_map out before ++ flat_map out after))
  /\ (forall out before after,
         COUNTRIES = before ++ country :: after ->
         launch b = true -> closeBrowser b = true ->
         (forall c, In c (before ++ after) ->
                    scrapeCountryBonds toLowerCase returnByValue
                      (pageFor b c) c
                    = Returns (out c)) ->
         scrapeAllCountries toLowerCase returnByValue b
         = Returns (flat_map out before ++ flat_map out after)).
Proof.
  intros Hopen Hclose Hfail.
  assert (E : scrapeCountryBonds toLowerCase returnByValue
                (pageFor b country) country = Returns []).
  { unfold scrapeCountryBonds.
    rewrite Hopen, (attempt_fails _ _ Hfail), Hclose. reflexivity. }
  assert (R : forall before after allData,
             scrapeCountries toLowerCase returnByValue b
               (before ++ country :: after) allData
             = scrapeCountries toLowerCase returnByValue b (before ++ after)
                 allData).
  { intros before. induction before as [|c before IH]; intros after allData.
    - simpl. rewrite E, app_nil_r. reflexivity.
    - simpl.
      destruct (scrapeCountryBonds toLowerCase returnByValue (pageFor b c) c);
        [apply IH | reflexivity]. }
  assert (C : forall out before after allData,
             (forall c, In c (before ++ after) ->
                        scrapeCountryBonds toLowerCase returnByValue
                          (pageFor b c) c
                        = Returns (out c)) ->
             scrapeCountries toLowerCase returnByValue b
               (before ++ country :: after) allData
             = Returns (allData ++ flat_map out before ++ flat_map out after)).
  { intros out before after allData H.
    rewrite R, (@scrapeCountries_outputs b out (before ++ after) allData H).
    rewrite flat_map_app. reflexivity. }
  split; [exact E|]. split; [exact R|]. split; [exact C|].
  intros out before after HC Hlaunch Hquit H.
  unfold scrapeAllCountries.
  rewrite Hlaunch, HC, (C out before after [] H), Hquit. reflexivity.
Qed.

End Failures.

(** ** [parseFloat] reads a decimal prefix and ignores what follows *)

(** Rounding never gives NaN. *)

Lemma shr_1_nonneg (mrs : shr_record) :
  (0 <= shr_m mrs)%Z -> (0 <= shr_m (shr_1 mrs))%Z.
Proof.
  destruct mrs as [m r s]. simpl.
  destruct m as [|[p|p|]|p]; simpl; lia.
Qed.

Lemma iter_pos_invariant (A : Type) (P : A -> Prop) (f : A -> A) :
  (forall x, P x -> P (f x)) -> forall p x, P x -> P (iter_pos f p x).
Proof.
  intros Hf p. induction p as [p IH|p IH|]; intros x Hx; simpl; auto.
Qed.

Lemma shr_fexp_nonneg (m e : Z) (l : location) :
  (0 <= m)%Z -> (0 <= shr_m (fst (shr_fexp 53 1024 m e l)))%Z.
Proof.
  intros Hm. unfold shr_fexp, shr.
  assert (H0 : (0 <= shr_m (shr_record_of_loc m l))%Z).
  { destruct l as [|[]]; simpl; exact Hm. }
  destruct (fexp 53 1024 (Zdigits2 m + e) - e)%Z; simpl; auto.
  apply iter_pos_invariant with (P := fun mrs => (0 <= shr_m mrs)%Z); auto.
  apply shr_1_nonneg.
Qed.

Lemma round_nearest_even_nonneg (m : Z) (l : location) :
  (0 <= m)%Z -> (0 <= round_nearest_even m l)%Z.
Proof.
  intros Hm. unfold round_nearest_even.
  destruct l as [|[]]; try destruct (Z.even m); lia.
Qed.

Lemma binary_round_aux_not_NaN (sx : bool) (mx ex : Z) (lx : location) :
  (0 <= mx)%Z -> isNaN (binary_round_aux 53 1024 sx mx ex lx) = false.
Proof.
  intros Hm. unfold binary_round_aux.
  pose proof (shr_fexp_nonneg ex lx Hm) as H1.
  destruct (shr_fexp 53 1024 mx ex lx) as [mrs' e']. simpl in H1.
  pose proof (shr_fexp_nonneg e' loc_Exact
                (round_nearest_even_nonneg (loc_of_shr_record mrs') H1)) as H2.
  destruct (shr_fexp 53 1024 _ e' loc_Exact) as [mrs'' e'']. simpl in H2.
  destruct (shr_m mrs'') as [|m|m]; try reflexivity.
  - destruct (e'' <=? _)%Z; reflexivity.
  - lia.
Qed.

Lemma roundQuotient_not_NaN (neg : bool) (a b : positive) :
  isNaN (roundQuotient neg a b) = false.
Proof.
  unfold roundQuotient, SFdiv, SFdiv_core_binary.
  set (m' := match _ with Z0 => Zpos a | Zpos _ => _ | Zneg _ => _ end).
  assert (Hm : (0 <= m')%Z).
  { subst m'. destruct (_ - _ - _)%Z; try lia.
    rewrite Z.shiftl_mul_pow2 by lia. 
    apply Z.mul_nonneg_nonneg; [lia | apply Z.pow_nonneg; lia]. }
  pose proof (Z.div_eucl_eq m' (Zpos b) ltac:(lia)) as Hd.
  pose proof (Z.mod_pos_bound m' (Zpos b) ltac:(lia)) as Hr.
  unfold Z.modulo in Hr.
  destruct (Z.div_eucl m' (Zpos b)) as [q r].
  apply binary_round_aux_not_NaN. nia.
Qed.

Lemma number_not_NaN (neg : bool) (m e : Z) : isNaN (number neg m e) = false.
Proof.
  unfold number. destruct m as [|p|p]; try reflexivity.
  assert (H1 : (0 < 10 ^ Z.max e 0 * Z.pos p)%Z).
  { apply Z.mul_pos_pos; [apply Z.pow_pos_nonneg|]; lia. }
  assert (H2 : (0 < 10 ^ Z.max (- e) 0)%Z) by (apply Z.pow_pos_nonneg; lia).
  destruct (10 ^ Z.max e 0 * Z.pos p)%Z; try lia.
  destruct (10 ^ Z.max (- e) 0)%Z; try lia.
  apply roundQuotient_not_NaN.
Qed.

Lemma dropWhile_nil (A : Type) (f : A -> bool) (l : list A) :
  dropWhile f l = [] <-> forallb f l = true.
Proof.
  induction l as [|x l IH]; simpl; [tauto|].
  destruct (f x); simpl; [exact IH|]. split; discriminate.
Qed.

Lemma dropWhile_head (A : Type) (f : A -> bool) (l : list A) x t :
  dropWhile f l = x :: t -> f x = false.
Proof.
  induction l as [|y l IH]; simpl; [discriminate|].
  destruct (f y) eqn:E; [exact IH|]. intros H; injection H as -> _. exact E.
Qed.

Lemma trim_nil (s : jsstring) :
  trim s = [] <-> forallb isWhiteSpace s = true.
Proof.
  unfold trim, trimEnd, trimStart. split.
  - intros H. apply (f_equal (@rev N)) in H. rewrite rev_involutive in H.
    simpl in H. apply dropWhile_nil in H.
    destruct (dropWhile isWhiteSpace s) as [|x t] eqn:D.
    + apply dropWhile_nil. exact D.
    + apply dropWhile_head in D.
      rewrite forallb_forall in H.
      rewrite (H x) in D; [discriminate|].
      apply in_rev. rewrite rev_involutive. left; reflexivity.
  - intros H. apply dropWhile_nil in H. rewrite H. reflexivity.
Qed.

Lemma cleaned_blank (text : jsstring) : trim text = [] -> cleaned text = [].
Proof.
  unfold cleaned. rewrite !trim_nil, !forallb_forall.
  intros H x Hx. apply filter_In in Hx. apply H, Hx.
Qed.

Section Prefix.

Variable c : N.
Variable r : jsstring.
Hypothesis c_digit : isDigit c = false.
Hypothesis c_point : c <> 46%N.
Hypothesis c_e : c <> 101%N.
Hypothesis c_E : c <> 69%N.

Lemma takeWhile_stop (p : jsstring) :
  takeWhile isDigit (p ++ c :: r) = takeWhile isDigit p.
Proof.
  induction p as [|x p IH]; simpl.
  - rewrite c_digit. reflexivity.
  - destruct (isDigit x); [rewrite IH|]; reflexivity.
Qed.

Lemma dropWhile_stop (p : jsstring) :
  dropWhile isDigit (p ++ c :: r) = dropWhile isDigit p ++ c :: r.
Proof.
  induction p as [|x p IH]; simpl.
  - rewrite c_digit. reflexivity.
  - destruct (isDigit x); [rewrite IH|]; reflexivity.
Qed.

Lemma scanMantissa_stop (s : jsstring) :
  scanMantissa (s ++ c :: r)
  = let '(ip, fp, r2) := scanMantissa s in (ip, fp, r2 ++ c :: r).
Proof.
  unfold scanMantissa. rewrite takeWhile_stop, dropWhile_stop.
  destruct (dropWhile isDigit s) as [|x t]; simpl.
  - apply N.eqb_neq in c_point. rewrite c_point. reflexivity.
  - destruct (x =? 46)%N; [|reflexivity].
    rewrite takeWhile_stop, dropWhile_stop. reflexivity.
Qed.

Lemma scanSign_stop (p : jsstring) :
  p <> [] ->
  scanSign (p ++ c :: r) = (fst (scanSign p), snd (scanSign p) ++ c :: r).
Proof.
  destruct p as [|h t]; [congruence|]. intros _. simpl.
  destruct (h =? 45)%N; [reflexivity|].
  destruct (h =? 43)%N; reflexivity.
Qed.

Lemma scanExponent_stop (r2 : jsstring) (e : Z) :
  scanExponent r2 = (e, []) -> scanExponent (r2 ++ c :: r) = (e, c :: r).
Proof.
  destruct r2 as [|y x]; simpl.
  - intros H. injection H as <-.
    apply N.eqb_neq in c_e, c_E. rewrite c_e, c_E. reflexivity.
  - destruct ((y =? 101)%N || (y =? 69)%N); [|discriminate].
    destruct x as [|h t].
    + simpl. discriminate.
    + pose proof (@scanSign_stop (h :: t) ltac:(discriminate)) as S.
      change ((h :: t) ++ c :: r) with (h :: t ++ c :: r) in S.
      change ((h :: t) ++ c :: r) with (h :: t ++ c :: r).
      rewrite S. destruct (scanSign (h :: t)) as [neg r1]. simpl fst; simpl snd.
      rewrite takeWhile_stop, dropWhile_stop.
      destruct (takeWhile isDigit r1); [discriminate|].
      intros H. injection H as <- ->. reflexivity.
Qed.

Lemma not_Infinity (s1 : jsstring) :
  startsWith (s1 ++ c :: r) (str "Infinity") = true ->
  startsWith s1 (str "Infinity") = false ->
  exists r2, scanMantissa s1 = ([], [], r2).
Proof.
  destruct s1 as [|h t].
  - intros _ _. exists []. reflexivity.
  - intros H _.
    change ((73 =? h)%N && startsWith (t ++ c :: r) (str "nfinity") = true)
      in H.
    apply andb_true_iff in H. destruct H as [H _].
    apply N.eqb_eq in H. subst h. exists (73%N :: t). reflexivity.
Qed.

Lemma scanLiteral_stop (p : jsstring) (neg : bool) (m e : Z) :
  scanLiteral p = DecimalLiteral neg m e [] ->
  scanLiteral (p ++ c :: r) = DecimalLiteral neg m e (c :: r).
Proof.
  intros Hp.
  assert (Hne : p <> []) by (intros ->; discriminate Hp).
  unfold scanLiteral in *. rewrite (scanSign_stop Hne).
  destruct (scanSign p) as [neg0 s1]. simpl fst; simpl snd.
  destruct (startsWith s1 (str "Infinity")) eqn:I1; [discriminate Hp|].
  destruct (startsWith (s1 ++ c :: r) (str "Infinity")) eqn:I2.
  { destruct (not_Infinity _ I2 I1) as [r2 E]. rewrite E in Hp.
    discriminate Hp. }
  rewrite scanMantissa_stop.
  destruct (scanMantissa s1) as [[ip fp] r2].
  destruct (ip ++ fp); [discriminate Hp|].
  destruct (scanExponent r2) as [e0 r3] eqn:E.
  injection Hp as <- <- <- ->.
  rewrite (scanExponent_stop _ E). reflexivity.
Qed.

End Prefix.

Lemma whiteSpace_cases (h : N) :
  isWhiteSpace h = true ->
  isDigit h = false /\ h <> 43%N /\ h <> 45%N /\ h <> 46%N /\ h <> 73%N.
Proof.
  intros H.
  assert (Hd : isDigit h = false).
  { unfold isDigit. apply andb_false_iff.
    destruct (48 <=? h)%N eqn:A; [right | left; reflexivity].
    destruct (h <=? 57)%N eqn:B; [exfalso | reflexivity].
    apply N.leb_le in A, B.
    assert (Hc : In h [48; 49; 50; 51; 52; 53; 54; 55; 56; 57]%N)
      by (simpl; lia).
    simpl in Hc.
    repeat (destruct Hc as [<- | Hc]; [discriminate H|]). exact Hc. }
  repeat split; try exact Hd; intros ->; discriminate H.
Qed.

Lemma literal_head (h : N) (t : jsstring) :
  isDecimalLiteral (h :: t) = true -> isWhiteSpace h = false.
Proof.
  intros H. destruct (isWhiteSpace h) eqn:W; [exfalso | reflexivity].
  destruct (whiteSpace_cases _ W) as (D & P & M & Pt & I).
  apply N.eqb_neq in P, M, Pt. apply not_eq_sym, N.eqb_neq in I.
  unfold isDecimalLiteral, scanLiteral, scanSign in H.
  rewrite P, M in H.
  change (startsWith (h :: t) (str "Infinity"))
    with ((73 =? h)%N && startsWith t (str "nfinity")) in H.
  rewrite I in H. cbn [andb] in H.
  unfold scanMantissa in H. cbn [takeWhile dropWhile] in H.
  rewrite D, Pt in H. discriminate H.
Qed.

Lemma trimStart_literal (p rest : jsstring) :
  isDecimalLiteral p = true -> trimStart (p ++ rest) = p ++ rest.
Proof.
  destruct p as [|h t]; [discriminate|]. intros H.
  apply literal_head in H. unfold trimStart. simpl. rewrite H. reflexivity.
Qed.

Lemma trimStart_whole (p : jsstring) :
  isDecimalLiteral p = true -> trimStart p = p.
Proof.
  intros H. pose proof (@trimStart_literal p [] H) as T.
  rewrite app_nil_r in T. exact T.
Qed.

Lemma parseFloat_literal_not_NaN (p : jsstring) :
  isDecimalLiteral p = true -> isNaN (parseFloat p) = false.
Proof.
  intros H. unfold parseFloat.
  rewrite (trimStart_whole _ H).
  unfold isDecimalLiteral in H.
  destruct (scanLiteral p); try discriminate H.
  apply number_not_NaN.
Qed.

Lemma parseFloat_prefix (p : jsstring) (c : N) (r : jsstring) :
  isDecimalLiteral p = true ->
  isDigit c = false -> c <> 46%N -> c <> 101%N -> c <> 69%N ->
  parseFloat (p ++ c :: r) = parseFloat p
  /\ isDecimalLiteral (p ++ c :: r) = false.
Proof.
  intros H D P E1 E2. unfold parseFloat.
  rewrite (@trimStart_literal p (c :: r) H).
  rewrite (trimStart_whole _ H).
  unfold isDecimalLiteral in *.
  destruct (scanLiteral p) as [| |neg m e rest] eqn:S; try discriminate H.
  destruct rest; [|discriminate H].
  rewrite (@scanLiteral_stop c r D P E1 E2 _ _ _ _ S). split; reflexivity.
Qed.

Lemma parseNumeric_prefix (text p : jsstring) (c : N) (r : jsstring) :
  cleaned text = p ++ c :: r ->
  isDecimalLiteral p = true ->
  isDigit c = false -> c <> 46%N -> c <> 101%N -> c <> 69%N ->
  parseNumeric text = Some (parseFloat p).
Proof.
  intros C H D P E1 E2.
  destruct (@parseFloat_prefix p c r H D P E1 E2) as [F _].
  pose proof (parseFloat_literal_not_NaN _ H) as N0.
  unfold parseNumeric.
  assert (X1 : eqs text [] = false).
  { destruct (eqs text []) eqn:X; [|reflexivity].
    apply eqs_spec in X. subst text. destruct p; discriminate C. }
  assert (X2 : eqs (trim text) [] = false).
  { destruct (eqs (trim text) []) eqn:X; [|reflexivity].
    apply eqs_spec, cleaned_blank in X. rewrite X in C.
    destruct p; discriminate C. }
  assert (X3 : eqs text (str "--") = false).
  { destruct (eqs text (str "--")) eqn:X; [|reflexivity].
    apply eqs_spec in X. subst text. vm_compute in C.
    destruct p as [|a [|b [|? ?]]]; try discriminate C;
      injection C; intros; subst; discriminate H. }
  assert (X4 : eqs text (str "N/A") = false).
  { destruct (eqs text (str "N/A")) eqn:X; [|reflexivity].
    apply eqs_spec in X. subst text. vm_compute in C.
    destruct p as [|a [|b [|? [|? ?]]]]; try discriminate C;
      injection C; intros; subst; discriminate H. }
  rewrite X1, X2, X3, X4. cbn [orb].
  rewrite C, F, N0. reflexivity.
Qed.

(** C9. "4.25 bps" is not a decimal literal, yet [parseNumeric] reads it as
    4.25. In general, when the cleaned text is a decimal literal [p]
    followed by a character that is no digit, point, [e] or [E], and then by
    anything, the cleaned text is not a decimal literal and [parseNumeric]
    returns the number that [p] reads as, which is not NaN. *)
Theorem numeric_prefix_is_read :
  (parseNumeric (str "4.25 bps") = Some (nearest 4.25)
   /\ exactly (nearest 4.25) 4.25
   /\ isDecimalLiteral (cleaned (str "4.25 bps")) = false)
  /\ forall (text p : jsstring) (c : N) (r : jsstring),
      cleaned text = p ++ c :: r ->
      isDecimalLiteral p = true ->
      isDigit c = false -> c <> 46%N -> c <> 101%N -> c <> 69%N ->
      isDecimalLiteral (cleaned text) = false
      /\ parseNumeric text = Some (parseFloat p)
      /\ isNaN (parseFloat p) = false.
Proof.
  split; [repeat split; vm_compute; reflexivity|].
  intros text p c r C H D P E1 E2. split; [|split].
  - rewrite C. exact (proj2 (@parseFloat_prefix p c r H D P E1 E2)).
  - exact (@parseNumeric_prefix text p c r C H D P E1 E2).
  - exact (parseFloat_literal_not_NaN _ H).
Qed.

(** ** The theorems at sample inputs *)

Lemma toLowerCaseASCII_ascii (s : jsstring) :
  isASCII s = true -> toLowerCaseASCII s = toLowerCaseASCII s.
Proof. reflexivity. Defined.

(** [results_spec] with the ASCII case mapping: the filter on the four
    sample names. *)
Lemma results_spec_witness :
  (forall n, name (named n) = n)
  /\ results toLowerCaseASCII
       [named (str "US 10 Year");
        named (str "US 10 Year TIPS (Inflation)");
        named (str "UK Muni 10 Year");
        named (str "US 10 Year II")]
     = [named (str "US 10 Year")].
Proof.
  split; [reflexivity|].
  apply (proj2 (proj2 (proj2
           (results_spec toLowerCaseASCII toLowerCaseASCII_ascii)))).
  reflexivity.
Defined.

(** [table_example] with the ASCII case mapping, for the United States and
    a clock that stands still, on [usTable]. *)
Lemma table_example_witness :
  documentQuerySelectorAll [ByType (str "table")] usTable = [usTableElement]
  /\ querySelectorAll [ByType (str "tr")] usTableElement = [usHeader; usRow]
  /\ cellTexts usHeader = map str ["Name"; "Coupon"; "Price"; "Yield"]%string
  /\ isASCII (textContent usHeader) = true
  /\ cellTexts usRow
     = map str ["US 10 Year"; "4.25%"; "98.50"; "4.40%"]%string
  /\ strategy1 toLowerCaseASCII (str "United States") noon usTable []
     = [usTenYear (str "United States")].
Proof.
  do 5 (split; [reflexivity|]).
  apply (proj1 (@table_example toLowerCaseASCII toLowerCaseASCII_ascii
                  (str "United States") noon usTable
                  usTableElement usHeader usRow
                  eq_refl eq_refl eq_refl eq_refl eq_refl)).
Defined.

(** [fields_never_NaN] at the record of [usTable]. *)
Lemma fields_never_NaN_witness :
  In (usTenYear (str "United States"))
    (strategy1 toLowerCaseASCII (str "United States") noon usTable [])
  /\ notNaN (coupon (usTenYear (str "United States")))
  /\ notNaN (price (usTenYear (str "United States")))
  /\ notNaN (yield (usTenYear (str "United States")))
  /\ notNaN (oneMonth (usTenYear (str "United States")))
  /\ notNaN (oneYear (usTenYear (str "United States"))).
Proof.
  assert (H : In (usTenYear (str "United States"))
                (strategy1 toLowerCaseASCII (str "United States") noon
                   usTable []))
    by (vm_compute; left; reflexivity).
  split; [exact H|].
  apply (fields_never_NaN toLowerCaseASCII (str "United States") noon
           usTable (usTenYear (str "United States"))).
  left. exact H.
Defined.

(** [navigation_failure_is_empty] for Germany in [germanyDown]: the run over
    the five countries returns the records of the four others, in order. *)
Lemma navigation_failure_witness :
  newPage (pageFor germanyDown germany) = true
  /\ close (pageFor germanyDown germany) = true
  /\ goto (pageFor germanyDown germany) = false
  /\ scrapeCountryBonds toLowerCaseASCII (fun bonds => bonds)
       (pageFor germanyDown germany) germany
     = Returns []
  /\ scrapeAllCountries toLowerCaseASCII (fun bonds => bonds) germanyDown
     = Returns [usTenYear (str "United States");
                usTenYear (str "United Kingdom");
                usTenYear (str "Japan");
                usTenYear (str "Australia")].
Proof.
  split; [reflexivity|]. split; [reflexivity|]. split; [reflexivity|].
  pose (T := navigation_failure_is_empty toLowerCaseASCII
               (fun bonds => bonds) germanyDown germany
               eq_refl eq_refl (or_introl eq_refl)).
  split; [exact (proj1 T)|].
  refine (proj2 (proj2 (proj2 T))
            (fun c => [usTenYear (Country.name c)])
            (firstn 2 COUNTRIES) (skipn 3 COUNTRIES)
            eq_refl eq_refl eq_refl _).
  intros c H. simpl in H.
  destruct H as [<- | [<- | [<- | [<- | []]]]]; vm_compute; reflexivity.
Defined.

(** [numeric_prefix_is_read] at "4.25 bps": the literal "4.25", a blank,
    "bps". *)
Lemma numeric_prefix_witness :
  cleaned (str "4.25 bps") = str "4.25" ++ 32%N :: str "bps"
  /\ isDecimalLiteral (str "4.25") = true
  /\ parseNumeric (str "4.25 bps") = Some (parseFloat (str "4.25")).
Proof.
  split; [reflexivity|]. split; [reflexivity|].
  apply (proj2 numeric_prefix_is_read (str "4.25 bps") (str "4.25") 32%N
           (str "bps"));
    solve [reflexivity | discriminate].
Defined.

(** The whole run with Germany unreachable: the four other countries give
    their record, in the order of [COUNTRIES]. *)
Example run_with_germany_down :
  scrapeAllCountries toLowerCaseASCII (fun bonds => bonds) germanyDown
  = Returns [usTenYear (str "United States");
             usTenYear (str "United Kingdom");
             usTenYear (str "Japan");
             usTenYear (str "Australia")].
Proof. vm_compute. reflexivity. Qed.

(** * Further properties of the scraper *)

(** ** When [parseNumeric] returns null *)

Lemma dropWhile_idem (A : Type) (f : A -> bool) (l : list A) :
  dropWhile f (dropWhile f l) = dropWhile f l.
Proof.
  destruct (dropWhile f l) as [|x t] eqn:E; [reflexivity|].
  apply dropWhile_head in E. simpl. rewrite E. reflexivity.
Qed.

Lemma trimStart_trim (s : jsstring) : trimStart (trim s) = trim s.
Proof.
  destruct (trim s) as [|h t] eqn:T; [reflexivity|].
  unfold trim, trimEnd, trimStart in T.
  destruct (dropWhile_suffix isWhiteSpace
              (rev (dropWhile isWhiteSpace s))) as [pre E].
  apply (f_equal (@rev N)) in E. rewrite rev_involutive, rev_app_distr, T in E.
  simpl in E.
  apply dropWhile_head in E. unfold trimStart. simpl. rewrite E. reflexivity.
Qed.

Lemma trim_idempotent (s : jsstring) : trim (trim s) = trim s.
Proof.
  unfold trim at 1. rewrite trimStart_trim.
  unfold trim, trimEnd, trimStart. rewrite rev_involutive, dropWhile_idem.
  reflexivity.
Qed.

Lemma parseFloat_cleaned (text : jsstring) :
  parseFloat (cleaned text)
  = match scanLiteral (cleaned text) with
    | NoLiteral => NaN
    | InfinityLiteral neg _ => S754_infinity neg
    | DecimalLiteral neg m e _ => number neg m e
    end.
Proof.
  unfold parseFloat, cleaned. rewrite trimStart_trim. reflexivity.
Qed.

Lemma placeholder_no_literal (text : jsstring) :
  eqs text [] || eqs (trim text) [] || eqs text (str "--")
  || eqs text (str "N/A") = true ->
  scanLiteral (cleaned text) = NoLiteral.
Proof.
  rewrite !orb_true_iff, !eqs_spec.
  intros [[[-> | H] | ->] | ->]; try reflexivity.
  rewrite (cleaned_blank _ H). reflexivity.
Qed.

Lemma parseNumeric_cases (text : jsstring) :
  (parseNumeric text = None <-> scanLiteral (cleaned text) = NoLiteral)
  /\ (forall x, parseNumeric text = Some x ->
                x = parseFloat (cleaned text) /\ isNaN x = false).
Proof.
  unfold parseNumeric.
  destruct (eqs text [] || eqs (trim text) [] || eqs text (str "--")
            || eqs text (str "N/A")) eqn:P.
  - split; [|discriminate].
    split; [intros _; apply placeholder_no_literal, P | reflexivity].
  - cbv zeta. rewrite parseFloat_cleaned.
    destruct (scanLiteral (cleaned text)) as [|neg rest|neg m e rest]; simpl.
    + split; [tauto | discriminate].
    + split; [split; discriminate|].
      intros x H. injection H as <-. auto.
    + rewrite number_not_NaN.
      split; [split; discriminate|].
      intros x H. injection H as <-. split; [reflexivity|].
      apply number_not_NaN.
Qed.

(** X1. [parseNumeric] returns null exactly when the cleaned text (the text
    less ",", "%" and the currency signs, trimmed) does not begin with a
    decimal literal or with Infinity: the tests for the empty string,
    blanks, "--" and "N/A" add no case. When it returns a number, the number
    is [parseFloat] of the cleaned text and is not NaN. *)
Theorem parseNumeric_null_iff (text : jsstring) :
  (parseNumeric text = None <-> scanLiteral (cleaned text) = NoLiteral)
  /\ (forall x, parseNumeric text = Some x ->
                x = parseFloat (cleaned text) /\ isNaN x = false).
Proof. exact (@parseNumeric_cases text). Qed.

(** ** [parseNumeric] on decimals *)

Lemma takeWhile_all (A : Type) (f : A -> bool) (l rest : list A) :
  forallb f l = true ->
  takeWhile f (l ++ rest) = l ++ takeWhile f rest
  /\ dropWhile f (l ++ rest) = dropWhile f rest.
Proof.
  induction l as [|x l IH]; simpl; [auto|].
  intros H. apply andb_true_iff in H. destruct H as [Hx Hl].
  rewrite Hx. destruct (IH Hl) as [-> ->]. auto.
Qed.

Lemma digits_not_Infinity (ds rest : jsstring) :
  forallb isDigit ds = true ->
  startsWith (ds ++ 46%N :: rest) (str "Infinity") = false
  /\ (ds <> [] -> startsWith ds (str "Infinity") = false).
Proof.
  destruct ds as [|d ds]; [split; [reflexivity | congruence]|].
  simpl forallb. intros H. apply andb_true_iff in H. destruct H as [Hd _].
  assert (E : (73 =? d)%N = false).
  { apply N.eqb_neq. intros <-. discriminate Hd. }
  split; [|intros _];
    change (str "Infinity") with (73%N :: str "nfinity"); simpl app;
    cbn [startsWith]; rewrite E; reflexivity.
Qed.

Lemma scanSign_digits (neg : bool) (s : jsstring) :
  (match s with
   | [] => True
   | c :: _ => c <> 45%N /\ c <> 43%N
   end) ->
  (neg = true \/ s <> []) ->
  scanSign (signChars neg ++ s) = (neg, s).
Proof.
  intros Hs Hne. destruct neg; simpl; [reflexivity|].
  destruct s as [|c s]; [destruct Hne; [discriminate | congruence]|].
  destruct Hs as [H1 H2]. apply N.eqb_neq in H1, H2.
  simpl. rewrite H1, H2. reflexivity.
Qed.

Lemma digit_not_sign (c : N) :
  isDigit c = true -> c <> 45%N /\ c <> 43%N.
Proof. intros H. split; intros ->; discriminate H. Qed.

Lemma scanLiteral_decimal (neg : bool) (ip fp : jsstring) :
  forallb isDigit ip = true -> forallb isDigit fp = true ->
  ip ++ fp <> [] ->
  scanLiteral (signChars neg ++ ip ++ 46%N :: fp)
  = DecimalLiteral neg (digitsValue (ip ++ fp))
      (- Z.of_nat (List.length fp)) [].
Proof.
  intros Hi Hf Hne. unfold scanLiteral.
  rewrite scanSign_digits.
  - destruct (@digits_not_Infinity ip fp Hi) as [-> _].
    unfold scanMantissa.
    destruct (@takeWhile_all _ isDigit ip (46%N :: fp) Hi) as [-> ->].
    cbn [takeWhile dropWhile isDigit N.leb N.compare andb app].
    change (isDigit 46) with false. cbn iota.
    rewrite app_nil_r. change (46 =? 46)%N with true. cbn iota.
    destruct (@takeWhile_all _ isDigit fp [] Hf) as [T D].
    rewrite app_nil_r in T, D. rewrite T, D. cbn [takeWhile dropWhile].
    rewrite app_nil_r.
    destruct (ip ++ fp) eqn:E; [congruence|].
    cbn [scanExponent]. reflexivity.
  - destruct ip as [|c ip]; simpl.
    + split; discriminate.
    + simpl in Hi. apply andb_true_iff in Hi. apply digit_not_sign, Hi.
  - right. destruct ip; discriminate.
Qed.

Lemma scanLiteral_integer (neg : bool) (ip : jsstring) :
  forallb isDigit ip = true -> ip <> [] ->
  scanLiteral (signChars neg ++ ip)
  = DecimalLiteral neg (digitsValue ip) 0 [].
Proof.
  intros Hi Hne. unfold scanLiteral.
  rewrite scanSign_digits.
  - destruct (@digits_not_Infinity ip [] Hi) as [_ I]. rewrite (I Hne).
    unfold scanMantissa.
    destruct (@takeWhile_all _ isDigit ip [] Hi) as [T D].
    rewrite app_nil_r in T, D. simpl in T, D. rewrite app_nil_r in T.
    rewrite T, D. rewrite !app_nil_r.
    destruct ip eqn:E; [congruence|].
    cbn [scanExponent]. reflexivity.
  - destruct ip as [|c ip]; [exact I|].
    simpl in Hi. apply andb_true_iff in Hi. apply digit_not_sign, Hi.
  - right. exact Hne.
Qed.

(** X2. When the cleaned text is an optional minus sign, digits, a point
    and digits ([ip], [fp], not both empty), [parseNumeric] returns the
    Number value of that decimal: the digits read as an integer, scaled by
    ten to minus the number of digits after the point. Without the point it
    returns the Number value of the integer. Commas, percent and currency
    signs anywhere in the text are not seen. *)
Theorem parseNumeric_decimal (text : jsstring) (neg : bool)
  (ip fp : jsstring) :
  forallb isDigit ip = true -> forallb isDigit fp = true ->
  (cleaned text = signChars neg ++ ip ++ 46%N :: fp -> ip ++ fp <> [] ->
   parseNumeric text
   = Some (number neg (digitsValue (ip ++ fp)) (- Z.of_nat (List.length fp))))
  /\ (cleaned text = signChars neg ++ ip -> ip <> [] ->
      parseNumeric text = Some (number neg (digitsValue ip) 0)).
Proof.
  intros Hi Hf.
  destruct (parseNumeric_cases text) as [Hnull Hsome].
  split; intros C Hne.
  - pose proof (@scanLiteral_decimal neg ip fp Hi Hf Hne) as S.
    rewrite <- C in S.
    destruct (parseNumeric text) as [x|] eqn:P.
    + destruct (Hsome x eq_refl) as [-> _].
      rewrite parseFloat_cleaned, S. reflexivity.
    + rewrite (proj1 Hnull eq_refl) in S. discriminate S.
  - pose proof (@scanLiteral_integer neg ip Hi Hne) as S.
    rewrite <- C in S.
    destruct (parseNumeric text) as [x|] eqn:P.
    + destruct (Hsome x eq_refl) as [-> _].
      rewrite parseFloat_cleaned, S. reflexivity.
    + rewrite (proj1 Hnull eq_refl) in S. discriminate S.
Qed.

(** ** The matches of the number pattern *)

Lemma takeWhile_forallb (A : Type) (f : A -> bool) (l : list A) :
  forallb f (takeWhile f l) = true.
Proof.
  induction l as [|x l IH]; simpl; [reflexivity|].
  destruct (f x) eqn:E; simpl; [rewrite E; exact IH | reflexivity].
Qed.

Lemma takeWhile_dropWhile (A : Type) (f : A -> bool) (l : list A) :
  l = takeWhile f l ++ dropWhile f l.
Proof.
  induction l as [|x l IH]; simpl; [reflexivity|].
  destruct (f x); simpl; [rewrite <- IH|]; reflexivity.
Qed.

Lemma forallb_firstn (A : Type) (f : A -> bool) (n : nat) (l : list A) :
  forallb f l = true -> forallb f (firstn n l) = true.
Proof.
  revert l; induction n as [|n IH]; intros [|x l]; simpl; auto.
  intros H. apply andb_true_iff in H. destruct H as [-> H]. simpl. auto.
Qed.

Lemma matchAt_shape (s tok : jsstring) :
  matchAt s = Some tok -> isToken tok /\ exists rest, s = tok ++ rest.
Proof.
  unfold matchAt.
  pose proof (takeWhile_forallb isDigit s) as Hip.
  pose proof (takeWhile_dropWhile isDigit s) as Hs.
  destruct (takeWhile isDigit s) as [|d ip] eqn:Eip; [discriminate|].
  destruct (dropWhile isDigit s) as [|c r] eqn:Er; [discriminate|].
  destruct (c =? 46)%N eqn:Ec; [|discriminate].
  apply N.eqb_eq in Ec. subst c.
  pose proof (takeWhile_forallb isDigit r) as Hfp.
  pose proof (takeWhile_dropWhile isDigit r) as Hr.
  pose proof (firstn_skipn 4 (takeWhile isDigit r)) as Hcut.
  pose proof (@forallb_firstn _ isDigit 4%nat _ Hfp) as Hf4.
  pose proof (firstn_le_length 4%nat (takeWhile isDigit r)) as Hlen.
  destruct (firstn 4 (takeWhile isDigit r)) as [|f fp] eqn:Efp;
    [discriminate|].
  intros H. injection H as <-. split.
  - exists (d :: ip), (f :: fp). repeat split; try discriminate; auto.
  - exists (skipn 4 (takeWhile isDigit r) ++ dropWhile isDigit r).
    rewrite Hs at 1. rewrite Hr at 1. rewrite <- Hcut at 1.
    simpl. f_equal. rewrite <- !app_assoc. reflexivity.
Qed.

Lemma scanNumbers_skip (k : nat) (s : jsstring) :
  scanNumbers k s = scanNumbers 0 (skipn k s).
Proof.
  revert s; induction k as [|k IH]; intros s; [reflexivity|].
  destruct s as [|c r]; [reflexivity|]. simpl. apply IH.
Qed.

Lemma matchNumbers_shape (s : jsstring) :
  Forall (fun tok => isToken tok /\ occursIn tok s) (matchNumbers s).
Proof.
  unfold matchNumbers. generalize 0%nat as k.
  induction s as [|c r IH]; intros k; [constructor|].
  assert (Hweak : forall k', Forall (fun tok => isToken tok
                                        /\ occursIn tok (c :: r))
                          (scanNumbers k' r)).
  { intros k'. eapply Forall_impl; [|apply IH].
    intros tok [H [pre [post ->]]]. split; [exact H|].
    exists (c :: pre), post. reflexivity. }
  simpl. destruct k as [|k]; [|apply Hweak].
  destruct (matchAt (c :: r)) as [tok|] eqn:M; [|apply Hweak].
  constructor; [|apply Hweak].
  destruct (@matchAt_shape _ _ M) as [H [rest E]]. split; [exact H|].
  exists [], rest. exact E.
Qed.

(** X3. Every match of [/\d+\.\d{1,4}/g] is digits, a point and one to four
    digits, and occurs in the string searched. After a match at the head of
    the string the search goes on behind the match; with no match at the
    head it goes on one code unit further. *)
Theorem matchNumbers_spec :
  (forall s, Forall (fun tok => isToken tok /\ occursIn tok s)
               (matchNumbers s))
  /\ (forall tok rest,
         matchAt (tok ++ rest) = Some tok ->
         matchNumbers (tok ++ rest) = tok :: matchNumbers rest)
  /\ (forall c r,
         matchAt (c :: r) = None ->
         matchNumbers (c :: r) = matchNumbers r)
  /\ matchNumbers [] = [].
Proof.
  split; [exact matchNumbers_shape|]. split; [|split; [|reflexivity]].
  - intros tok rest M. unfold matchNumbers.
    destruct (@matchAt_shape _ _ M) as [[ip [fp [E [Hip _]]]] _].
    destruct tok as [|c tok]; [destruct ip; discriminate E|].
    simpl app in *. cbn [scanNumbers]. rewrite M. f_equal.
    rewrite scanNumbers_skip. f_equal.
    replace (List.length (c :: tok) - 1)%nat with (List.length tok)
      by (simpl; lia).
    rewrite skipn_app, skipn_all, Nat.sub_diag. reflexivity.
  - intros c r M. unfold matchNumbers. cbn [scanNumbers]. rewrite M.
    reflexivity.
Qed.

(** ** Tokens read as numbers above zero *)

Lemma binary_round_aux_sign (sx : bool) (mx ex : Z) (lx : location) :
  match binary_round_aux 53 1024 sx mx ex lx with
  | S754_zero s | S754_infinity s | S754_finite s _ _ => s = sx
  | S754_nan => True
  end.
Proof.
  unfold binary_round_aux.
  destruct (shr_fexp 53 1024 mx ex lx) as [mrs' e'].
  destruct (shr_fexp 53 1024 _ e' loc_Exact) as [mrs'' e''].
  destruct (shr_m mrs''); try reflexivity.
  destruct (e'' <=? _)%Z; reflexivity.
Qed.

Lemma number_sign (neg : bool) (m e : Z) :
  match number neg m e with
  | S754_zero s | S754_infinity s | S754_finite s _ _ => s = neg
  | S754_nan => True
  end.
Proof.
  unfold number. destruct m as [|p|p]; try reflexivity.
  destruct (10 ^ Z.max e 0 * Z.pos p)%Z; try exact I.
  destruct (10 ^ Z.max (- e) 0)%Z; try exact I.
  unfold roundQuotient, SFdiv.
  destruct (SFdiv_core_binary 53 1024 _ 0 _ 0) as [[mz ez] lz].
  rewrite xorb_false_r. apply binary_round_aux_sign.
Qed.

Lemma token_head (tok : jsstring) :
  isToken tok -> trimStart tok = tok.
Proof.
  intros [ip [fp [-> [Hne [Hip _]]]]].
  destruct ip as [|d ip]; [congruence|].
  simpl in Hip. apply andb_true_iff in Hip. destruct Hip as [Hd _].
  unfold trimStart. simpl.
  destruct (isWhiteSpace d) eqn:W; [|reflexivity].
  destruct (whiteSpace_cases _ W) as [D _]. congruence.
Qed.

Lemma parseFloat_token (tok : jsstring) :
  isToken tok ->
  exists m e, parseFloat tok = number false m e.
Proof.
  intros H. unfold parseFloat. rewrite (@token_head tok H).
  destruct H as [ip [fp [-> [Hne [Hip [Hnf [_ Hfp]]]]]]].
  pose proof (@scanLiteral_decimal false ip fp Hip Hfp) as S.
  simpl signChars in S. simpl app in S. rewrite S.
  - eauto.
  - destruct ip; [congruence | discriminate].
Qed.

Lemma tokenValue_positive (tokens : list jsstring) (k : nat) (x : Number) :
  Forall isToken tokens -> tokenValue tokens k = Some x ->
  isPositive x = true.
Proof.
  intros Hall. unfold tokenValue.
  destruct (nth_error tokens k) as [tok|] eqn:E; [|discriminate].
  apply nth_error_In in E. rewrite Forall_forall in Hall.
  destruct (@parseFloat_token tok (Hall _ E)) as [m [e P]].
  cbv zeta. rewrite P.
  pose proof (number_sign false m e) as S.
  pose proof (number_not_NaN false m e) as Nn.
  destruct (number false m e) as [s|s| |s mm ee]; simpl;
    try discriminate; intros H; injection H as <-; subst s; reflexivity.
Qed.

(** ** One record for each qualifying line *)

Lemma occursIn_join (sep x : jsstring) (l : list jsstring) :
  In x l -> occursIn x (join sep l).
Proof.
  induction l as [|y l IH]; [intros []|].
  intros [<- | H].
  - destruct l as [|z l]; [apply occursIn_refl|].
    exists [], (sep ++ join sep (z :: l)). reflexivity.
  - destruct l as [|z l]; [destruct H|].
    destruct (IH H) as [pre [post E]].
    exists (y ++ sep ++ pre), post.
    change (join sep (y :: z :: l)) with (y ++ sep ++ join sep (z :: l)).
    rewrite E, <- !app_assoc. reflexivity.
Qed.

Lemma line_in_window (lines : list jsstring) (i : nat) :
  (i < List.length lines)%nat ->
  In (nth i lines []) (slice (Nat.max 0 (i - 1)) (i + 3) lines).
Proof.
  intros Hi. unfold slice.
  apply nth_error_In with (n := (i - Nat.max 0 (i - 1))%nat).
  rewrite nth_error_firstn.
  replace (i - Nat.max 0 (i - 1) <? i + 3 - Nat.max 0 (i - 1))%nat with true
    by (symmetry; apply Nat.ltb_lt; lia).
  rewrite nth_error_skipn.
  replace (Nat.max 0 (i - 1) + (i - Nat.max 0 (i - 1)))%nat with i by lia.
  apply nth_error_nth'. exact Hi.
Qed.

Lemma matchAt_nil : matchAt [] = None.
Proof. reflexivity. Qed.

Lemma matchAt_grows (s post tok : jsstring) :
  matchAt s = Some tok -> exists tok', matchAt (s ++ post) = Some tok'.
Proof.
  unfold matchAt.
  pose proof (takeWhile_dropWhile isDigit s) as Hs.
  pose proof (takeWhile_forallb isDigit s) as Hip.
  destruct (takeWhile isDigit s) as [|d ip] eqn:Eip; [discriminate|].
  destruct (dropWhile isDigit s) as [|c r] eqn:Er; [discriminate|].
  destruct (c =? 46)%N eqn:Ec; [|discriminate].
  pose proof (takeWhile_dropWhile isDigit r) as Hr.
  pose proof (takeWhile_forallb isDigit r) as Hfp.
  destruct (takeWhile isDigit r) as [|f fp] eqn:Efp; [discriminate|].
  intros _.
  rewrite Hs, <- app_assoc.
  destruct (@takeWhile_all _ isDigit (d :: ip) ((c :: r) ++ post) Hip)
    as [-> ->].
  assert (Hc : isDigit c = false)
    by (apply N.eqb_eq in Ec; subst c; reflexivity).
  simpl app. cbn [takeWhile dropWhile]. rewrite Hc, app_nil_r, Ec.
  rewrite Hr, <- app_assoc.
  destruct (@takeWhile_all _ isDigit (f :: fp) (dropWhile isDigit r ++ post)
              Hfp) as [-> _].
  simpl. eauto.
Qed.

Lemma match_found (pre suf : jsstring) :
  matchAt suf <> None -> matchNumbers (pre ++ suf) <> [].
Proof.
  intros H. unfold matchNumbers.
  induction pre as [|c pre IH]; simpl.
  - destruct suf as [|c r]; [contradiction H; reflexivity|].
    cbn [scanNumbers]. destruct (matchAt (c :: r)); [discriminate|].
    contradiction H; reflexivity.
  - destruct (matchAt (c :: pre ++ suf)); [discriminate | exact IH].
Qed.

Lemma match_position (s : jsstring) :
  matchNumbers s <> [] ->
  exists pre suf, s = pre ++ suf /\ matchAt suf <> None.
Proof.
  unfold matchNumbers. induction s as [|c r IH]; [intros H; contradiction H; reflexivity|].
  cbn [scanNumbers]. destruct (matchAt (c :: r)) eqn:M.
  - intros _. exists [], (c :: r). split; [reflexivity|].
    rewrite M. discriminate.
  - intros H. destruct (IH H) as [pre [suf [-> Hm]]].
    exists (c :: pre), suf. split; [reflexivity | exact Hm].
Qed.

Lemma matchNumbers_occursIn (s t : jsstring) :
  matchNumbers s <> [] -> occursIn s t -> matchNumbers t <> [].
Proof.
  intros H [before [after ->]].
  destruct (@match_position s H) as [pre [suf [-> Hm]]].
  destruct (matchAt suf) as [tok|] eqn:M; [|contradiction Hm; reflexivity].
  destruct (@matchAt_grows suf after tok M) as [tok' M'].
  replace (before ++ (pre ++ suf) ++ after)
    with ((before ++ pre) ++ (suf ++ after))
    by (rewrite <- !app_assoc; reflexivity).
  apply match_found. rewrite M'. discriminate.
Qed.

Lemma window_has_numbers (lines : list jsstring) (i : nat) :
  (0 <? List.length (matchNumbers (nth i lines [])))%nat = true ->
  (1 <=? List.length (matchNumbers (contextOf lines i)))%nat = true.
Proof.
  intros H. apply Nat.ltb_lt in H.
  assert (Hne : matchNumbers (nth i lines []) <> [])
    by (intros E; rewrite E in H; inversion H).
  assert (Hi : (i < List.length lines)%nat).
  { destruct (Nat.lt_ge_cases i (List.length lines)) as [L | G]; [exact L|].
    rewrite (nth_overflow _ _ G) in Hne. contradiction Hne; reflexivity. }
  apply Nat.leb_le.
  assert (Hc : matchNumbers (contextOf lines i) <> []).
  { apply (@matchNumbers_occursIn _ _ Hne). unfold contextOf.
    apply occursIn_join, line_in_window, Hi. }
  destruct (matchNumbers (contextOf lines i)); [congruence | simpl; lia].
Qed.

Lemma nth_seq_map (A : Type) (l : list A) (d : A) :
  map (fun i => nth i l d) (seq 0 (List.length l)) = l.
Proof.
  induction l as [|x l IH]; simpl; [reflexivity|].
  f_equal. rewrite <- seq_shift, map_map. exact IH.
Qed.

Lemma flat_map_filter (A B : Type) (p : B -> bool) (f : A -> B)
  (l : list A) :
  flat_map (fun i => if p (f i) then [f i] else []) l = filter p (map f l).
Proof.
  induction l as [|x l IH]; simpl; [reflexivity|].
  destruct (p (f x)); simpl; rewrite IH; reflexivity.
Qed.

Section Text.
Variable toLowerCase : jsstring -> jsstring.
Variable countryName : jsstring.
Variable now : nat -> jsstring.

Lemma textLine_names (words lines : list jsstring)
  (bonds : list BloombergBondData) (i : nat) :
  map name (textLine toLowerCase countryName now words lines bonds i)
  = map name bonds
    ++ (if qualifies toLowerCase words (nth i lines [])
        then [nth i lines []] else []).
Proof.
  unfold textLine, qualifies. cbv zeta.
  destruct (existsb _ words || includes _ (str "%")); simpl andb;
    [|rewrite app_nil_r; reflexivity].
  destruct (0 <? List.length (matchNumbers (nth i lines [])))%nat eqn:H;
    simpl andb; [|rewrite app_nil_r; reflexivity].
  destruct (5 <? List.length (nth i lines []))%nat;
    [|rewrite app_nil_r; reflexivity].
  rewrite (@window_has_numbers lines i H). rewrite map_app. reflexivity.
Qed.

(** X5. When the keywords of the country are an array, strategy 3 returns,
    and the names of its records are the lines of the page text that pass
    the test of line 249, each once, in order: the inner test
    [numbers.length >= 1] never fails, since the window of a line holds the
    line. *)
Theorem one_record_per_line (d : Document) (words : list jsstring) :
  keywords countryName = Some words ->
  exists out,
    strategy3 toLowerCase countryName now d [] = Returns out
    /\ map name out
       = filter (qualifies toLowerCase words) (textLines (innerText d)).
Proof.
  intros K. unfold strategy3. rewrite K. cbv zeta.
  eexists. split; [reflexivity|].
  rewrite (fold_left_emit
             (textLine toLowerCase countryName now words
                (textLines (innerText d)))
             name
             (fun i =>
                if qualifies toLowerCase words
                     (nth i (textLines (innerText d)) [])
                then [nth i (textLines (innerText d)) []] else [])).
  - simpl. rewrite (flat_map_filter (qualifies toLowerCase words)
                      (fun i => nth i (textLines (innerText d)) [])).
    rewrite nth_seq_map. reflexivity.
  - intros acc i. apply textLine_names.
Qed.

End Text.

(** ** Invariants of the records *)

Lemma tokenValue_positiveOrNull (s : jsstring) (k : nat) :
  positiveOrNull (tokenValue (matchNumbers s) k).
Proof.
  destruct (tokenValue (matchNumbers s) k) as [x|] eqn:E; [|exact I].
  simpl. apply (@tokenValue_positive (matchNumbers s) k x); [|exact E].
  eapply Forall_impl; [|apply matchNumbers_shape]. intros tok H. apply H.
Qed.

Section Invariants.
Variable toLowerCase : jsstring -> jsstring.
Variable countryName : jsstring.
Variable now : nat -> jsstring.

(** X4. In a record that strategy 3 gives, a numeric field is null or a
    number above zero: the pattern reads no sign, so a negative quote loses
    its sign, and a token that reads as zero gives null. *)
Theorem text_fields_positive (d : Document)
  (out : list BloombergBondData) (bond : BloombergBondData) :
  strategy3 toLowerCase countryName now d [] = Returns out ->
  In bond out ->
  Forall positiveOrNull (numericFields bond).
Proof.
  intros H Hin.
  assert (A : Forall (fun b => Forall positiveOrNull (numericFields b)) out).
  { revert H. unfold strategy3.
    destruct (keywords countryName) as [words|].
    - intros H. injection H as <-.
      apply fold_left_Forall; [|constructor].
      intros acc i Hacc. unfold textLine. cbv zeta.
      destruct (_ && _); [|exact Hacc].
      destruct (1 <=? _)%nat; [|exact Hacc].
      apply Forall_app. split; [exact Hacc|]. constructor; [|constructor].
      unfold numericFields, quote; simpl.
      repeat constructor; apply tokenValue_positiveOrNull.
    - destruct (textLines _); [|discriminate].
      intros H. injection H as <-. constructor. }
  exact (proj1 (Forall_forall _ _) A _ Hin).
Qed.



Lemma stamped_push (bonds : list BloombergBondData) (b : BloombergBondData) :
  stamped countryName now bonds -> country b = countryName ->
  scrapedAt b = now (List.length bonds) ->
  stamped countryName now (bonds ++ [b]).
Proof.
  intros [Hc Ht] Hb Hs. split.
  - apply Forall_app. split; [exact Hc | constructor; auto].
  - rewrite length_app, Nat.add_comm. simpl List.length.
    rewrite seq_S, !map_app, Ht. simpl. rewrite Hs. reflexivity.
Qed.

Lemma fold_left_invariant (S X : Type) (P : S -> Prop) (step : S -> X -> S) :
  (forall acc x, P acc -> P (step acc x)) ->
  forall xs acc, P acc -> P (fold_left step xs acc).
Proof.
  intros Hstep xs. induction xs as [|x xs IH]; intros acc Hacc; simpl; auto.
Qed.

Lemma strategy1_stamped (d : Document) (bonds : list BloombergBondData) :
  stamped countryName now bonds ->
  stamped countryName now (strategy1 toLowerCase countryName now d bonds).
Proof.
  unfold strategy1. apply fold_left_invariant. clear bonds.
  intros acc t Hacc. unfold table.
  destruct (_ <? 2)%nat; [exact Hacc|].
  destruct (isBondHeader _); [|exact Hacc].
  revert Hacc. apply fold_left_invariant. clear acc.
  intros acc row Hacc. unfold tableRow.
  destruct (2 <=? _)%nat; [|exact Hacc].
  destruct (validTableName _ _); [|exact Hacc].
  apply stamped_push; auto.
Qed.

Lemma strategy2_stamped (d : Document) (bonds : list BloombergBondData) :
  stamped countryName now bonds ->
  stamped countryName now (strategy2 countryName now d bonds).
Proof.
  unfold strategy2. apply fold_left_invariant. clear bonds.
  intros acc selector. apply fold_left_invariant. clear acc.
  intros acc element. unfold selectorElement.
  apply fold_left_invariant. clear acc.
  intros acc row Hacc. unfold selectorRow.
  destruct (2 <=? _)%nat; [|exact Hacc].
  destruct (validSelectorName _); [|exact Hacc].
  apply stamped_push; auto.
Qed.

Lemma strategy3_stamped (d : Document) (bonds out : list BloombergBondData) :
  stamped countryName now bonds ->
  strategy3 toLowerCase countryName now d bonds = Returns out ->
  stamped countryName now out.
Proof.
  unfold strategy3. intros Hb.
  destruct (keywords countryName) as [words|].
  - intros H. injection H as <-. revert Hb. apply fold_left_invariant.
    clear bonds. intros acc i Hacc. unfold textLine. cbv zeta.
    destruct (_ && _); [|exact Hacc].
    destruct (1 <=? _)%nat; [|exact Hacc].
    apply stamped_push; auto.
  - destruct (textLines _); [|discriminate].
    intros H. injection H as <-. exact Hb.
Qed.

(** X6. Every record the callback returns carries the country name it was
    called with, and the record at index [k] carries the [k]-th reading of
    the clock. *)
Theorem evaluate_stamps (d : Document) (out : list BloombergBondData) :
  completion (evaluate toLowerCase countryName now d) = Returns out ->
  Forall (fun b => country b = countryName) out
  /\ map scrapedAt out = map now (seq 0 (List.length out)).
Proof.
  assert (H0 : stamped countryName now [])
    by (split; [constructor | reflexivity]).
  unfold evaluate.
  pose proof (strategy1_stamped d H0) as H1.
  destruct (strategy1 toLowerCase countryName now d []) as [|b1 t1].
  - cbn [List.length Nat.eqb].
    pose proof (strategy2_stamped d H0) as H2.
    destruct (strategy2 countryName now d []) as [|b2 t2].
    + cbn [List.length Nat.eqb completion]. intros H.
      exact (strategy3_stamped d H0 H).
    + cbn [List.length Nat.eqb completion]. intros H. injection H as <-.
      exact H2.
  - cbn [List.length Nat.eqb completion]. intros H. injection H as <-.
    exact H1.
Qed.



Lemma cellText_trimmed (cells : list Node) (k : nat) :
  trim (cellText cells k) = cellText cells k.
Proof.
  unfold cellText. destruct (nth_error cells k); [|reflexivity].
  apply trim_idempotent.
Qed.

(** X7. The name of a record of strategy 1 passes the test of lines
    144-149, is trimmed and has at least two code units; the name of a
    record of strategy 2 passes the test of line 205, is trimmed and has at
    least three. *)
Theorem row_names_valid (d : Document) :
  Forall (fun b => validTableName toLowerCase (name b) = true
                   /\ trim (name b) = name b
                   /\ (2 <= List.length (name b))%nat)
    (strategy1 toLowerCase countryName now d [])
  /\ Forall (fun b => validSelectorName (name b) = true
                      /\ trim (name b) = name b
                      /\ (3 <= List.length (name b))%nat)
       (strategy2 countryName now d []).
Proof.
  split.
  - unfold strategy1. apply fold_left_Forall; [|constructor].
    intros acc t Hacc. unfold table.
    destruct (_ <? 2)%nat; [exact Hacc|].
    destruct (isBondHeader _); [|exact Hacc].
    revert Hacc. apply fold_left_Forall. clear acc.
    intros acc row Hacc. unfold tableRow. cbv zeta.
    destruct (2 <=? _)%nat; [|exact Hacc].
    destruct (validTableName _ _) eqn:V; [|exact Hacc].
    apply Forall_app. split; [exact Hacc|]. constructor; [|constructor].
    simpl name. split; [exact V|]. split; [apply cellText_trimmed|].
    unfold validTableName in V. rewrite !andb_true_iff in V.
    destruct V as [[[[_ L] _] _] _]. apply Nat.ltb_lt in L. lia.
  - unfold strategy2. apply fold_left_Forall; [|constructor].
    intros acc selector. apply fold_left_Forall. clear acc.
    intros acc element. unfold selectorElement.
    apply fold_left_Forall. clear acc.
    intros acc row Hacc. unfold selectorRow. cbv zeta.
    destruct (2 <=? _)%nat; [|exact Hacc].
    destruct (validSelectorName _) eqn:V; [|exact Hacc].
    apply Forall_app. split; [exact Hacc|]. constructor; [|constructor].
    simpl name. split; [exact V|]. split; [apply cellText_trimmed|].
    unfold validSelectorName in V. rewrite !andb_true_iff in V.
    destruct V as [[_ L] _]. apply Nat.ltb_lt in L. lia.
Qed.

End Invariants.

(** ** When the callback throws *)

Ltac not_a_member :=
  let H := fresh in
  intros H; vm_compute in H;
  repeat (destruct H as [H | H]; [discriminate H|]); destruct H.

Section Throwing.
Variable toLowerCase : jsstring -> jsstring.
Variable now : nat -> jsstring.

(** X8. The callback throws exactly when the country name is the name of
    a member of [Object.prototype], both strategy 1 and strategy 2 give
    nothing and the page text has a line: [keywords.some] is then not a
    function. For the five countries of [COUNTRIES] it never throws. *)
Theorem evaluate_throws_iff :
  (forall countryName d,
      completion (evaluate toLowerCase countryName now d) = Throws <->
      bondKeywords countryName = Inherited
      /\ strategy1 toLowerCase countryName now d [] = []
      /\ strategy2 countryName now d [] = []
      /\ textLines (innerText d) <> [])
  /\ (forall countryName,
         bondKeywords countryName = Inherited <->
         In countryName objectPrototype)
  /\ (forall c d,
         In c COUNTRIES ->
         completion (evaluate toLowerCase (Country.name c) now d) <> Throws).
Proof.
  assert (A : forall countryName d,
      completion (evaluate toLowerCase countryName now d) = Throws <->
      bondKeywords countryName = Inherited
      /\ strategy1 toLowerCase countryName now d [] = []
      /\ strategy2 countryName now d [] = []
      /\ textLines (innerText d) <> []).
  { intros countryName d. unfold evaluate.
    destruct (strategy1 toLowerCase countryName now d []) as [|b1 t1];
      cbn [List.length Nat.eqb completion];
      [|split; [discriminate | intros (_ & H & _); discriminate H]].
    destruct (strategy2 countryName now d []) as [|b2 t2];
      cbn [List.length Nat.eqb completion];
      [|split; [discriminate | intros (_ & _ & H & _); discriminate H]].
    unfold strategy3, keywords.
    destruct (bondKeywords countryName);
      try (split; [discriminate | intros (H & _); discriminate H]).
    destruct (textLines (innerText d)).
    - split; [discriminate | intros (_ & _ & _ & H); congruence].
    - split; [intros _; repeat split; discriminate | reflexivity]. }
  split; [exact A|]. split.
  - intros countryName. unfold bondKeywords.
    destruct (eqs countryName (str "United States")) eqn:E1;
      [apply eqs_spec in E1; subst; split; [discriminate | not_a_member]|].
    destruct (eqs countryName (str "United Kingdom")) eqn:E2;
      [apply eqs_spec in E2; subst; split; [discriminate | not_a_member]|].
    destruct (eqs countryName (str "Germany")) eqn:E3;
      [apply eqs_spec in E3; subst; split; [discriminate | not_a_member]|].
    destruct (eqs countryName (str "Japan")) eqn:E4;
      [apply eqs_spec in E4; subst; split; [discriminate | not_a_member]|].
    destruct (eqs countryName (str "Australia")) eqn:E5;
      [apply eqs_spec in E5; subst; split; [discriminate | not_a_member]|].
    destruct (existsb (eqs countryName) objectPrototype) eqn:E.
    + split; [intros _|reflexivity].
      apply existsb_exists in E. destruct E as [k [Hk Ek]].
      apply eqs_spec in Ek. subst k. exact Hk.
    + split; [discriminate|]. intros Hin. exfalso.
      assert (T : existsb (eqs countryName) objectPrototype = true).
      { apply existsb_exists. exists countryName. split; [exact Hin|].
        apply eqs_refl. }
      congruence.
  - intros c d Hin H. apply A in H. destruct H as [K _].
    simpl in Hin.
    repeat (destruct Hin as [<- | Hin]; [discriminate K|]). exact Hin.
Qed.
End Throwing.

(** ** The errors that leave [scrapeCountryBonds] *)

Section Escapes.
Variable toLowerCase : jsstring -> jsstring.
Variable returnByValue : list BloombergBondData -> list BloombergBondData.

Lemma scrapeCountryBonds_cases (s : Session) (country : Country.Config) :
  (scrapeCountryBonds toLowerCase returnByValue s country = Throws <->
   newPage s = false \/ close s = false)
  /\ (forall data,
         scrapeCountryBonds toLowerCase returnByValue s country = Returns data ->
         data = []
         \/ exists d bonds,
             rendered s = Some d
             /\ completion (evaluate toLowerCase (Country.name country)
                              (clock s) d) = Returns bonds
             /\ data = returnByValue bonds).
Proof.
  unfold scrapeCountryBonds, attempt.
  destruct (newPage s); [|split; [tauto | discriminate]].
  destruct (goto s && waitForTimeout s).
  - destruct (rendered s) as [d|].
    + destruct (completion (evaluate toLowerCase (Country.name country)
                              (clock s) d)) as [bonds|] eqn:E.
      * destruct (close s).
        -- split; [split; [discriminate | intros [H|H]; discriminate H]|].
           intros data H. injection H as <-. right. eauto.
        -- split; [tauto | discriminate].
      * destruct (close s).
        -- split; [split; [discriminate | intros [H|H]; discriminate H]|].
           intros data H. injection H as <-. left. reflexivity.
        -- split; [tauto | discriminate].
    + destruct (close s).
      * split; [split; [discriminate | intros [H|H]; discriminate H]|].
        intros data H. injection H as <-. left. reflexivity.
      * split; [tauto | discriminate].
  - destruct (close s).
    + split; [split; [discriminate | intros [H|H]; discriminate H]|].
      intros data H. injection H as <-. left. reflexivity.
    + split; [tauto | discriminate].
Qed.

(** X9. [scrapeCountryBonds] throws exactly when the page cannot be opened
    or cannot be closed; whatever fails in between is caught. What it
    returns is the empty array or the records of the callback as the browser
    hands them back. *)
Theorem scrapeCountryBonds_throws_iff (s : Session) (country : Country.Config) :
  (scrapeCountryBonds toLowerCase returnByValue s country = Throws <->
   newPage s = false \/ close s = false)
  /\ (forall data,
         scrapeCountryBonds toLowerCase returnByValue s country = Returns data ->
         data = []
         \/ exists d bonds,
             rendered s = Some d
             /\ completion (evaluate toLowerCase (Country.name country)
                              (clock s) d) = Returns bonds
             /\ data = returnByValue bonds).
Proof. exact (@scrapeCountryBonds_cases s country). Qed.

Lemma scrapeCountries_returns (b : Browser) (cs : list Country.Config)
  (allData : list BloombergBondData) :
  (forall c, In c cs ->
             newPage (pageFor b c) = true /\ close (pageFor b c) = true) ->
  scrapeCountries toLowerCase returnByValue b cs allData
  = Returns (allData ++ flat_map (countryData toLowerCase returnByValue b) cs).
Proof.
  revert allData. induction cs as [|c cs IH]; intros allData H; simpl.
  - rewrite app_nil_r. reflexivity.
  - unfold countryData at 1.
    destruct (scrapeCountryBonds toLowerCase returnByValue (pageFor b c) c)
      as [data|] eqn:E.
    + rewrite IH, <- app_assoc; [reflexivity|].
      intros c' Hc'. apply H. right. exact Hc'.
    + apply (proj1 (scrapeCountryBonds_cases (pageFor b c) c)) in E.
      destruct (H c (or_introl eq_refl)) as [H1 H2].
      destruct E as [E|E]; congruence.
Qed.

Lemma scrapeCountries_throws (b : Browser) (cs : list Country.Config)
  (allData : list BloombergBondData) :
  (exists c, In c cs
             /\ (newPage (pageFor b c) = false
                 \/ close (pageFor b c) = false)) ->
  scrapeCountries toLowerCase returnByValue b cs allData = Throws.
Proof.
  revert allData. induction cs as [|c cs IH]; intros allData [c' [Hin Hc']].
  - destruct Hin.
  - simpl.
    destruct (scrapeCountryBonds toLowerCase returnByValue (pageFor b c) c)
      as [data|] eqn:E; [|reflexivity].
    destruct Hin as [-> | Hin].
    + apply (proj2 (proj1 (scrapeCountryBonds_cases (pageFor b c') c')))
        in Hc'.
      congruence.
    + apply IH. eauto.
Qed.

Lemma results_flat_map (A : Type) (f : A -> list BloombergBondData)
  (l : list A) :
  results toLowerCase (flat_map f l)
  = flat_map (fun x => results toLowerCase (f x)) l.
Proof.
  unfold results. induction l as [|x l IH]; simpl; [reflexivity|].
  rewrite filter_app, IH. reflexivity.
Qed.

(** X10. With the browser launched and closed without error: when every
    page of [COUNTRIES] opens and closes, [scrapeAllCountries] returns the
    records of the countries one after the other in the order of
    [COUNTRIES], and the filter of [main] applied to them is the
    concatenation of the filtered records of each country; when one page
    fails to open or to close, [scrapeAllCountries] throws and returns no
    record of any country. *)
Theorem run_is_concatenation (b : Browser) :
  launch b = true -> closeBrowser b = true ->
  ((forall c, In c COUNTRIES ->
              newPage (pageFor b c) = true /\ close (pageFor b c) = true) ->
   scrapeAllCountries toLowerCase returnByValue b
   = Returns (flat_map (countryData toLowerCase returnByValue b) COUNTRIES)
   /\ results toLowerCase
        (flat_map (countryData toLowerCase returnByValue b) COUNTRIES)
      = flat_map
          (fun c =>
             results toLowerCase (countryData toLowerCase returnByValue b c))
          COUNTRIES)
  /\ ((exists c, In c COUNTRIES
                 /\ (newPage (pageFor b c) = false
                     \/ close (pageFor b c) = false)) ->
      scrapeAllCountries toLowerCase returnByValue b = Throws).
Proof.
  intros L C. unfold scrapeAllCountries. rewrite L. split.
  - intros H. rewrite (@scrapeCountries_returns b COUNTRIES [] H), C.
    split; [reflexivity | apply results_flat_map].
  - intros H. rewrite (@scrapeCountries_throws b COUNTRIES [] H). reflexivity.
Qed.

End Escapes.

(** ** Nested matches *)

Lemma descendants_trans (n m x : Node) :
  In m (descendants n) -> In x (descendants m) -> In x (descendants n).
Proof.
  revert m x. induction n as [d|nm attrs cs IH] using Node_induction;
    intros m x; simpl.
  - intros [].
  - intros Hm Hx. apply in_flat_map in Hm. destruct Hm as [c [Hc Hm]].
    apply in_flat_map. exists c. split; [exact Hc|]. right.
    destruct Hm as [<- | Hm]; [exact Hx|].
    rewrite Forall_forall in IH. exact (IH c Hc m x Hm Hx).
Qed.

(** X11. An element matched inside an element that [document.querySelectorAll]
    matched is itself among the matches of the document, and what
    [querySelectorAll] finds below the inner one it finds below the outer
    one too. For tables: a table nested in a table is scanned by strategy 1
    on its own, and its rows are also rows of the outer table. *)
Theorem nested_rows_read_twice (sel rows : Selector) (d : Document)
  (outer inner : Node) :
  In outer (documentQuerySelectorAll sel d) ->
  In inner (querySelectorAll sel outer) ->
  In inner (documentQuerySelectorAll sel d)
  /\ incl (querySelectorAll rows inner) (querySelectorAll rows outer).
Proof.
  unfold documentQuerySelectorAll, querySelectorAll.
  intros Ho Hi. apply filter_In in Ho, Hi.
  destruct Ho as [Ho _]. destruct Hi as [Hi Mi]. split.
  - apply filter_In. split; [|exact Mi]. right.
    destruct Ho as [<- | Ho]; [exact Hi|].
    exact (descendants_trans _ _ _ Ho Hi).
  - intros x Hx. apply filter_In in Hx. destruct Hx as [Hx Mx].
    apply filter_In. split; [|exact Mx].
    exact (descendants_trans _ _ _ Hi Hx).
Qed.

(** ** The lines of the page text *)

Lemma split_no_sep (sep : N) (x : jsstring) :
  ~ In sep x -> split sep x = [x].
Proof.
  induction x as [|c x IH]; simpl; [reflexivity|].
  intros H. destruct (N.eqb_spec c sep) as [->|_]; [tauto|].
  rewrite IH by tauto. reflexivity.
Qed.

Lemma split_app (sep : N) (x rest : jsstring) :
  ~ In sep x -> split sep (x ++ sep :: rest) = x :: split sep rest.
Proof.
  induction x as [|c x IH]; simpl.
  - rewrite N.eqb_refl. reflexivity.
  - intros H. destruct (N.eqb_spec c sep) as [->|_]; [tauto|].
    rewrite IH by tauto. reflexivity.
Qed.

Lemma split_join (sep : N) (ls : list jsstring) :
  ls <> [] -> Forall (fun l => ~ In sep l) ls ->
  split sep (join [sep] ls) = ls.
Proof.
  induction ls as [|x ls IH]; [congruence|].
  intros _ H. inversion H as [|? ? Hx Hls]; subst.
  destruct ls as [|y ls]; [apply split_no_sep, Hx|].
  change (join [sep] (x :: y :: ls)) with (x ++ sep :: join [sep] (y :: ls)).
  rewrite split_app by exact Hx. rewrite IH; [reflexivity | discriminate | exact Hls].
Qed.

Lemma split_no_sep_inside (sep : N) (s : jsstring) :
  Forall (fun l => ~ In sep l) (split sep s).
Proof.
  induction s as [|c s IH]; simpl; [repeat constructor; intros []|].
  destruct (N.eqb_spec c sep) as [->|Hne].
  - constructor; [intros [] | exact IH].
  - destruct (split sep s) as [|h t]; [repeat constructor; simpl; intuition congruence|].
    inversion IH; subst. constructor; [|assumption].
    simpl. intuition congruence.
Qed.

Lemma trim_incl (s : jsstring) (c : N) : In c (trim s) -> In c s.
Proof.
  destruct (occursIn_trim s) as [pre [post E]]. intros H. rewrite E.
  apply in_or_app. right. apply in_or_app. left. exact H.
Qed.

(** X12. The lines strategy 3 works on are not empty, trimmed and without a
    line feed; and a text made of such lines joined by line feeds is split
    into just those lines. *)
Theorem textLines_spec :
  (forall pageText, Forall isLine (textLines pageText))
  /\ (forall ls, Forall isLine ls -> textLines (join [10%N] ls) = ls).
Proof.
  split.
  - intros pageText. unfold textLines. apply Forall_forall. intros l H.
    apply filter_In in H. destruct H as [H L].
    apply in_map_iff in H. destruct H as [x [<- Hx]].
    split; [|split].
    + intros E. rewrite E in L. discriminate L.
    + apply trim_idempotent.
    + intros Hin. apply trim_incl in Hin.
      pose proof (split_no_sep_inside 10%N pageText) as S.
      rewrite Forall_forall in S. exact (S x Hx Hin).
  - intros ls H. unfold textLines.
    destruct ls as [|x ls]; [reflexivity|].
    rewrite split_join; [|discriminate|].
    + induction H as [|l ls' [Hne [Ht _]] _ IH]; [reflexivity|].
      simpl. rewrite Ht. destruct l; [congruence|]. simpl. f_equal. exact IH.
    + eapply Forall_impl; [|exact H]. intros l [_ [_ Hl]]. exact Hl.
Qed.

(** ** The page text is the last resort for the records *)

(** X13. When strategy 1 or strategy 2 gives a record, the records the
    callback returns do not depend on the page text: with any other text in
    place of [document.body.innerText] the callback completes with the same
    value. *)
Theorem text_is_last_resort (toLowerCase : jsstring -> jsstring)
  (countryName : jsstring) (now : nat -> jsstring) (d : Document)
  (pageText : jsstring) :
  strategy1 toLowerCase countryName now d [] <> []
  \/ strategy2 countryName now d [] <> [] ->
  completion
    (evaluate toLowerCase countryName now
       {| documentElement := documentElement d; innerText := pageText |})
  = completion (evaluate toLowerCase countryName now d).
Proof.
  intros H. unfold evaluate.
  change (strategy1 toLowerCase countryName now
            {| documentElement := documentElement d; innerText := pageText |} [])
    with (strategy1 toLowerCase countryName now d []).
  destruct (strategy1 toLowerCase countryName now d []) as [|b1 t1];
    [|reflexivity].
  cbn [List.length Nat.eqb].
  change (strategy2 countryName now
            {| documentElement := documentElement d; innerText := pageText |} [])
    with (strategy2 countryName now d []).
  destruct (strategy2 countryName now d []) as [|b2 t2]; [|reflexivity].
  destruct H as [H|H]; contradiction H; reflexivity.
Qed.

(** ** The further properties at sample inputs *)

Lemma parseNumeric_decimal_witness :
  forallb isDigit (str "1234") = true
  /\ forallb isDigit (str "50") = true
  /\ cleaned (str "1,234.50%")
     = signChars false ++ str "1234" ++ 46%N :: str "50"
  /\ parseNumeric (str "1,234.50%") = Some (number false 123450 (-2)).
Proof.
  split; [reflexivity|]. split; [reflexivity|]. split; [reflexivity|].
  exact (proj1 (@parseNumeric_decimal (str "1,234.50%") false (str "1234")
                  (str "50") eq_refl eq_refl)
           eq_refl ltac:(discriminate)).
Defined.

Lemma one_record_per_line_witness :
  keywords (str "United States")
  = Some (map str ["treasury"; "bond"; "note"; "bill"]%string)
  /\ exists out,
      strategy3 toLowerCaseASCII (str "United States") noon zeroCouponText []
      = Returns out
      /\ map name out
         = filter (qualifies toLowerCaseASCII
                     (map str ["treasury"; "bond"; "note"; "bill"]%string))
             (textLines (innerText zeroCouponText)).
Proof.
  split; [reflexivity|].
  exact (@one_record_per_line toLowerCaseASCII (str "United States") noon
           zeroCouponText _ eq_refl).
Defined.

Lemma text_fields_positive_witness :
  strategy3 toLowerCaseASCII (str "United States") noon zeroCouponText []
  = Returns [zeroCouponRecord]
  /\ Forall positiveOrNull (numericFields zeroCouponRecord).
Proof.
  assert (H : strategy3 toLowerCaseASCII (str "United States") noon
                zeroCouponText [] = Returns [zeroCouponRecord])
    by (vm_compute; reflexivity).
  split; [exact H|].
  exact (@text_fields_positive toLowerCaseASCII (str "United States") noon
           zeroCouponText _ _ H (or_introl eq_refl)).
Defined.

Lemma evaluate_stamps_witness :
  completion (evaluate toLowerCaseASCII (str "United States") noon usTable)
  = Returns [usTenYear (str "United States")]
  /\ Forall (fun b => country b = str "United States")
       [usTenYear (str "United States")]
  /\ map scrapedAt [usTenYear (str "United States")] = map noon (seq 0 1).
Proof.
  assert (H : completion (evaluate toLowerCaseASCII (str "United States")
                            noon usTable)
              = Returns [usTenYear (str "United States")])
    by (vm_compute; reflexivity).
  split; [exact H|].
  exact (@evaluate_stamps toLowerCaseASCII (str "United States") noon
           usTable _ H).
Defined.

Lemma run_is_concatenation_witness :
  launch germanyDown = true
  /\ closeBrowser germanyDown = true
  /\ scrapeAllCountries toLowerCaseASCII (fun bonds => bonds) germanyDown
     = Returns (flat_map
                  (countryData toLowerCaseASCII (fun bonds => bonds)
                     germanyDown)
                  COUNTRIES).
Proof.
  split; [reflexivity|]. split; [reflexivity|].
  assert (P : forall c, In c COUNTRIES ->
                newPage (pageFor germanyDown c) = true
                /\ close (pageFor germanyDown c) = true).
  { intros c _. unfold germanyDown. cbn [pageFor].
    destruct (eqs (Country.code c) (str "DE")); split; reflexivity. }
  exact (proj1 (proj1 (@run_is_concatenation toLowerCaseASCII
                         (fun bonds => bonds) germanyDown eq_refl eq_refl)
                  P)).
Defined.

Lemma nested_rows_read_twice_witness :
  In outerTable (documentQuerySelectorAll [ByType (str "table")] nestedTables)
  /\ In innerTable (querySelectorAll [ByType (str "table")] outerTable)
  /\ In innerTable
       (documentQuerySelectorAll [ByType (str "table")] nestedTables)
  /\ incl (querySelectorAll [ByType (str "tr")] innerTable)
       (querySelectorAll [ByType (str "tr")] outerTable).
Proof.
  assert (H1 : In outerTable
                 (documentQuerySelectorAll [ByType (str "table")]
                    nestedTables))
    by (vm_compute; left; reflexivity).
  assert (H2 : In innerTable
                 (querySelectorAll [ByType (str "table")] outerTable))
    by (vm_compute; left; reflexivity).
  split; [exact H1|]. split; [exact H2|].
  exact (@nested_rows_read_twice [ByType (str "table")] [ByType (str "tr")]
           nestedTables outerTable innerTable H1 H2).
Defined.

Lemma text_is_last_resort_witness :
  strategy1 toLowerCaseASCII (str "United States") noon usTable [] <> []
  /\ completion
       (evaluate toLowerCaseASCII (str "United States") noon
          {| documentElement := documentElement usTable;
             innerText := str "Treasury 0.00% 99.80" |})
     = completion
         (evaluate toLowerCaseASCII (str "United States") noon usTable).
Proof.
  assert (H : strategy1 toLowerCaseASCII (str "United States") noon
                usTable [] <> [])
    by (vm_compute; discriminate).
  split; [exact H|].
  exact (@text_is_last_resort toLowerCaseASCII (str "United States") noon
           usTable (str "Treasury 0.00% 99.80") (or_introl H)).
Defined.

(** * Properties of the items API *)

Module RouteFacts.
Import Route.

(** ** [parseInt] of an id written in decimal *)

Lemma digitsOf_digits (u : Decimal.uint) : forallb isDigit (digitsOf u) = true.
Proof. induction u; simpl; auto. Qed.

Lemma radixValue_acc (u : Decimal.uint) (acc : nat) :
  fold_left (fun a c => (10 * a + hexValue c)%Z) (digitsOf u) (Z.of_nat acc)
  = Z.of_nat (Nat.of_uint_acc u acc).
Proof.
  revert acc; induction u as [|u IH|u IH|u IH|u IH|u IH|u IH|u IH|u IH|u IH|u IH];
    intros acc; cbn [digitsOf fold_left Nat.of_uint_acc]; [reflexivity|..];
    rewrite <- IH; f_equal; rewrite Nat.tail_mul_spec;
    change (hexValue 48) with 0%Z; change (hexValue 49) with 1%Z;
    change (hexValue 50) with 2%Z; change (hexValue 51) with 3%Z;
    change (hexValue 52) with 4%Z; change (hexValue 53) with 5%Z;
    change (hexValue 54) with 6%Z; change (hexValue 55) with 7%Z;
    change (hexValue 56) with 8%Z; change (hexValue 57) with 9%Z; lia.
Qed.

Lemma digitsOf_nonempty (n : nat) : decimal n <> [].
Proof.
  unfold decimal. intros E.
  assert (H : Nat.to_uint n = Decimal.Nil)
    by (destruct (Nat.to_uint n); try discriminate E; reflexivity).
  pose proof (Unsigned.of_to n) as R. rewrite H in R. simpl in R.
  subst n. discriminate H.
Qed.

Lemma takeWhile_id (A : Type) (f : A -> bool) (l : list A) :
  forallb f l = true -> takeWhile f l = l.
Proof.
  induction l as [|x l IH]; simpl; [reflexivity|].
  intros H. apply andb_true_iff in H. destruct H as [-> H].
  rewrite IH by exact H. reflexivity.
Qed.

Lemma parseInt_digits (ds rest : jsstring) :
  ds <> [] -> forallb isDigit ds = true ->
  match rest with
  | [] => True
  | c :: _ => isDigit c = false /\ c <> 120%N /\ c <> 88%N
  end ->
  parseInt (ds ++ rest) = Some (radixValue 10 ds).
Proof.
  intros Hne Hd Hrest. unfold parseInt.
  destruct ds as [|c r]; [congruence|].
  pose proof Hd as Hd'.
  simpl in Hd. apply andb_true_iff in Hd. destruct Hd as [Hc Hr].
  assert (W : isWhiteSpace c = false).
  { destruct (isWhiteSpace c) eqn:W; [|reflexivity].
    destruct (whiteSpace_cases _ W) as [D _]. congruence. }
  unfold trimStart. simpl app. cbn [dropWhile]. rewrite W.
  destruct (digit_not_sign _ Hc) as [M P].
  apply N.eqb_neq in M, P. unfold scanSign. rewrite M, P.
  assert (T : takeWhile isDigit (c :: r ++ rest) = c :: r).
  { destruct (@takeWhile_all _ isDigit (c :: r) rest Hd') as [T _].
    simpl app in T. rewrite T.
    destruct rest as [|x rest']; [simpl; rewrite app_nil_r; reflexivity|].
    destruct Hrest as [Hx _]. cbn [takeWhile]. rewrite Hx.
    rewrite app_nil_r. reflexivity. }
  assert (X : match r ++ rest with
              | [] => True
              | x :: _ => (x =? 120)%N || (x =? 88)%N = false
              end).
  { destruct r as [|x r0]; simpl.
    - destruct rest as [|x rest']; [exact I|].
      destruct Hrest as [_ [H1 H2]]. apply N.eqb_neq in H1, H2.
      rewrite H1, H2. reflexivity.
    - simpl in Hr. apply andb_true_iff in Hr. destruct Hr as [Hx _].
      apply orb_false_iff. split; apply N.eqb_neq; intros ->; discriminate Hx. }
  destruct (r ++ rest) as [|x t] eqn:E.
  - change (10 =? 16)%Z with false. cbv iota. rewrite T. reflexivity.
  - rewrite X, andb_false_r.
    change (10 =? 16)%Z with false. cbv iota. rewrite T. reflexivity.
Qed.

Lemma parseInt_decimal (n : nat) :
  parseInt (decimal n) = Some (Z.of_nat n)
  /\ forall c r,
      isDigit c = false -> c <> 120%N -> c <> 88%N ->
      parseInt (decimal n ++ c :: r) = Some (Z.of_nat n).
Proof.
  pose proof (digitsOf_nonempty n) as Hne.
  pose proof (digitsOf_digits (Nat.to_uint n)) as Hd.
  fold (decimal n) in Hd.
  assert (Hv : radixValue 10 (decimal n) = Z.of_nat n).
  { unfold radixValue, decimal.
    pose proof (radixValue_acc (Nat.to_uint n) 0) as A.
    change (Z.of_nat 0) with 0%Z in A. rewrite A.
    change (Nat.of_uint_acc (Nat.to_uint n) 0) with (Nat.of_uint (Nat.to_uint n)).
    rewrite Unsigned.of_to. reflexivity. }
  split.
  - rewrite <- (app_nil_r (decimal n)) at 1.
    rewrite (@parseInt_digits (decimal n) [] Hne Hd I), Hv. reflexivity.
  - intros c r H1 H2 H3.
    rewrite (@parseInt_digits (decimal n) (c :: r) Hne Hd
               (conj H1 (conj H2 H3))), Hv.
    reflexivity.
Qed.

(** ** Finding, replacing and removing an element *)

Lemma findIndex_Some (A : Type) (p : A -> bool) (l : list A) (i : nat) (x : A) :
  findIndex p l = Some (i, x) ->
  exists pre post,
    l = pre ++ x :: post /\ List.length pre = i /\ p x = true
    /\ Forall (fun y => p y = false) pre.
Proof.
  revert i; induction l as [|y l IH]; intros i; simpl; [discriminate|].
  destruct (p y) eqn:E.
  - intros H. injection H as <- <-. exists [], l. auto.
  - destruct (findIndex p l) as [[j z]|]; [|discriminate].
    intros H. injection H as <- <-.
    destruct (IH j eq_refl) as [pre [post [-> [L [Px Hpre]]]]].
    exists (y :: pre), post. simpl. rewrite L. auto.
Qed.

Lemma findIndex_None (A : Type) (p : A -> bool) (l : list A) :
  findIndex p l = None -> Forall (fun y => p y = false) l.
Proof.
  induction l as [|y l IH]; simpl; [constructor|].
  destruct (p y) eqn:E; [discriminate|].
  destruct (findIndex p l) as [[j z]|]; [discriminate|].
  intros _. constructor; auto.
Qed.

Lemma find_skip (A : Type) (p : A -> bool) (l1 l2 : list A) :
  Forall (fun y => p y = false) l1 -> find p (l1 ++ l2) = find p l2.
Proof.
  induction 1 as [|y l1 Hy _ IH]; simpl; [reflexivity|].
  rewrite Hy. exact IH.
Qed.

Lemma splice1_middle (A : Type) (pre post : list A) (x : A) :
  splice1 (List.length pre) (pre ++ x :: post) = pre ++ post.
Proof.
  unfold splice1. induction pre as [|z pre IH]; simpl;
    [reflexivity | f_equal; exact IH].
Qed.

Lemma assign_middle (A : Type) (pre post : list A) (x y : A) :
  assign (List.length pre) y (pre ++ x :: post) = pre ++ y :: post.
Proof. induction pre as [|z pre IH]; simpl; [|rewrite IH]; reflexivity. Qed.

(** ** POST *)

Lemma post_cases (data : list Item) (now : jsstring) (json : option JSON) :
  (status (snd (POST data now json)) = 201%nat ->
   exists n d,
     truthyJSON n = true /\ truthyJSON d = true
     /\ POST data now json
        = (data ++ [ {| id := List.length data + 1; name := n;
                        description := d; createdAt := Some now;
                        updatedAt := None |} ],
           {| status := 201;
              body := Done (str "Item created successfully")
                        {| id := List.length data + 1; name := n;
                           description := d; createdAt := Some now;
                           updatedAt := None |} |}))
  /\ (status (snd (POST data now json)) <> 201%nat ->
      fst (POST data now json) = data
      /\ (status (snd (POST data now json)) = 400%nat
          \/ status (snd (POST data now json)) = 500%nat))
  /\ (status (snd (POST data now json)) = 500%nat <->
      json = None \/ json = Some JNull).
Proof.
  unfold POST.
  destruct json as [body|];
    [|simpl; repeat split; try discriminate; auto].
  destruct body as [|b|x|s|l|ps]; simpl;
    try (repeat split; try discriminate; auto;
         intros [H|H]; discriminate H).
  destruct (property (str "name") ps) as [n|];
    [|simpl; repeat split; try discriminate; auto;
      intros [H|H]; discriminate H].
  destruct (property (str "description") ps) as [d|];
    [|simpl; repeat split; try discriminate; auto;
      intros [H|H]; discriminate H].
  destruct (truthyJSON n) eqn:Tn; destruct (truthyJSON d) eqn:Td; simpl;
    try (repeat split; try discriminate; auto;
         intros [H|H]; discriminate H).
  split; [intros _; exists n, d; auto|].
  split; [intros H; contradiction H; reflexivity|].
  split; [discriminate | intros [H|H]; discriminate H].
Qed.

Lemma post_created (data : list Item) (now : jsstring) (body n d : JSON) :
  member (str "name") body = Some n ->
  member (str "description") body = Some d ->
  truthyJSON n = true -> truthyJSON d = true ->
  POST data now (Some body)
  = (data ++ [ {| id := List.length data + 1; name := n;
                  description := d; createdAt := Some now;
                  updatedAt := None |} ],
     {| status := 201;
        body := Done (str "Item created successfully")
                  {| id := List.length data + 1; name := n;
                     description := d; createdAt := Some now;
                     updatedAt := None |} |}).
Proof.
  intros Hn Hd Tn Td. unfold POST.
  destruct body as [|b|x|s|l|ps]; try discriminate Hn.
  rewrite Hn, Hd, Tn, Td. reflexivity.
Qed.

Lemma post_status (data : list Item) (now : jsstring) (json : option JSON) :
  status (snd (POST data now json)) = 201%nat ->
  exists body n d,
    json = Some body
    /\ member (str "name") body = Some n
    /\ member (str "description") body = Some d
    /\ truthyJSON n = true /\ truthyJSON d = true.
Proof.
  unfold POST. destruct json as [body|]; [|discriminate].
  destruct body as [|b|x|s|l|ps]; try discriminate.
  destruct (member (str "name") (JObject ps)) as [n|] eqn:Hn;
    [|discriminate].
  destruct (member (str "description") (JObject ps)) as [d|] eqn:Hd;
    [|discriminate].
  destruct (truthyJSON n) eqn:Tn; [|discriminate].
  destruct (truthyJSON d) eqn:Td; [|discriminate].
  intros _. exists (JObject ps), n, d. auto.
Qed.

(** X15. POST answers 201 exactly when the body is a value with a truthy
    [name] and a truthy [description]; it then appends one item whose id is
    the length of the array plus one, whose name and description are those
    members of the body and whose creation time is the time of the request,
    and returns that item. Any other answer is 400 or 500 and leaves the
    array as it was; 500 is the answer exactly when the body cannot be read
    or is null. *)
Theorem post_spec (data : list Item) (now : jsstring) (json : option JSON) :
  (status (snd (POST data now json)) = 201%nat <->
   exists body n d,
     json = Some body
     /\ member (str "name") body = Some n
     /\ member (str "description") body = Some d
     /\ truthyJSON n = true /\ truthyJSON d = true)
  /\ (forall body n d,
         json = Some body ->
         member (str "name") body = Some n ->
         member (str "description") body = Some d ->
         truthyJSON n = true -> truthyJSON d = true ->
         POST data now json
         = (data ++ [ {| id := List.length data + 1; name := n;
                         description := d; createdAt := Some now;
                         updatedAt := None |} ],
            {| status := 201;
               body := Done (str "Item created successfully")
                         {| id := List.length data + 1; name := n;
                            description := d; createdAt := Some now;
                            updatedAt := None |} |}))
  /\ (status (snd (POST data now json)) <> 201%nat ->
      fst (POST data now json) = data
      /\ (status (snd (POST data now json)) = 400%nat
          \/ status (snd (POST data now json)) = 500%nat))
  /\ (status (snd (POST data now json)) = 500%nat <->
      json = None \/ json = Some JNull).
Proof.
  split; [|split].
  - split; [apply post_status|].
    intros [body0 [n [d [-> [Hn [Hd [Tn Td]]]]]]].
    rewrite (@post_created data now body0 n d Hn Hd Tn Td). reflexivity.
  - intros body0 n d -> Hn Hd Tn Td.
    exact (@post_created data now body0 n d Hn Hd Tn Td).
  - exact (proj2 (@post_cases data now json)).
Qed.

(** ** DELETE *)

Lemma delete_cases (data : list Item) (idParam : option jsstring) :
  (status (snd (DELETE data idParam)) = 200%nat ->
   exists s pre x post,
     present idParam = Some s
     /\ data = pre ++ x :: post
     /\ hasId (parseInt s) x = true
     /\ Forall (fun y => hasId (parseInt s) y = false) pre
     /\ DELETE data idParam
        = (pre ++ post, ok (Done (str "Item deleted successfully") x)))
  /\ (status (snd (DELETE data idParam)) <> 200%nat ->
      fst (DELETE data idParam) = data)
  /\ (status (snd (DELETE data idParam)) = 400%nat <->
      idParam = None \/ idParam = Some [])
  /\ (status (snd (DELETE data idParam)) = 404%nat <->
      exists s, present idParam = Some s
                /\ Forall (fun y => hasId (parseInt s) y = false) data).
Proof.
  unfold DELETE.
  destruct idParam as [[|c s]|]; simpl present; cbv iota.
  - simpl. repeat split; try discriminate; auto.
    intros [s [H _]]. discriminate H.
  - destruct (findIndex (hasId (parseInt (c :: s))) data) as [[i x]|] eqn:F.
    + destruct (findIndex_Some _ _ F) as [pre [post [E [L [Px Hpre]]]]].
      simpl. split; [|split; [|split]].
      * intros _. exists (c :: s), pre, x, post.
        repeat split; auto. rewrite E at 1. rewrite <- L, splice1_middle.
        reflexivity.
      * intros H. contradiction H. reflexivity.
      * split; [discriminate | intros [H|H]; discriminate H].
      * split; [discriminate|]. intros [s' [H Hall]].
        injection H as <-. rewrite E in Hall.
        apply Forall_app in Hall. destruct Hall as [_ Hall].
        inversion Hall; subst. congruence.
    + simpl. split; [discriminate|]. split; [reflexivity|].
      split; [split; [discriminate | intros [H|H]; discriminate H]|].
      split; [intros _|reflexivity].
      exists (c :: s). split; [reflexivity | apply findIndex_None, F].
  - simpl. repeat split; try discriminate; auto.
    intros [s [H _]]. discriminate H.
Qed.


(** ** GET *)

(** X14. GET without an id, or with an empty one, lists the array with its
    length. With an id it returns the first item whose id is the integer
    [parseInt] reads from it, or 404 when there is none. What follows the
    digits of the id is ignored: an id written in decimal and followed by a
    character that is no digit and no [x] finds the same item. *)
Theorem get_spec (data : list Item) (idParam : option jsstring) :
  (present idParam = None ->
   GET data idParam = ok (Listing data (List.length data)))
  /\ (forall s,
         present idParam = Some s ->
         (exists pre x post,
             data = pre ++ x :: post
             /\ hasId (parseInt s) x = true
             /\ Forall (fun y => hasId (parseInt s) y = false) pre
             /\ GET data idParam = ok (TheItem x))
         \/ (Forall (fun y => hasId (parseInt s) y = false) data
             /\ GET data idParam = failed 404 "Item not found"))
  /\ (forall n c r,
         isDigit c = false -> c <> 120%N -> c <> 88%N ->
         GET data (Some (decimal n ++ c :: r))
         = GET data (Some (decimal n))).
Proof.
  split; [|split].
  - unfold GET. intros ->. reflexivity.
  - intros s Hp. unfold GET. rewrite Hp.
    assert (F : forall l : list Item,
               (exists pre x post,
                   l = pre ++ x :: post /\ hasId (parseInt s) x = true
                   /\ Forall (fun y => hasId (parseInt s) y = false) pre
                   /\ find (hasId (parseInt s)) l = Some x)
               \/ (Forall (fun y => hasId (parseInt s) y = false) l
                   /\ find (hasId (parseInt s)) l = None)).
    { induction l as [|y l IH]; [right; split; [constructor | reflexivity]|].
      simpl. destruct (hasId (parseInt s) y) eqn:E.
      - left. exists [], y, l. auto.
      - destruct IH as [[pre [x [post [-> [Hx [Hpre Hf]]]]]] | [Hall Hf]].
        + left. exists (y :: pre), x, post. auto.
        + right. auto. }
    destruct (F data) as [[pre [x [post [E [Hx [Hpre Hf]]]]]] | [Hall Hf]];
      rewrite Hf.
    + left. exists pre, x, post. auto.
    + right. auto.
  - intros n c r H1 H2 H3. unfold GET.
    pose proof (digitsOf_nonempty n) as Hne.
    destruct (parseInt_decimal n) as [P1 P2].
    specialize (P2 c r H1 H2 H3).
    destruct (decimal n) as [|d ds] eqn:D; [congruence|].
    simpl app in *. cbn [present]. rewrite P1, P2. reflexivity.
Qed.

(** ** PUT *)

Section PutFacts.
Variable numberToString : Number -> jsstring.

Lemma put_cases (data : list Item) (now : jsstring) (json : option JSON) :
  map id (fst (PUT numberToString data now json)) = map id data
  /\ map createdAt (fst (PUT numberToString data now json))
     = map createdAt data
  /\ (status (snd (PUT numberToString data now json)) = 200%nat ->
      exists body pre old post,
        json = Some body
        /\ data = pre ++ old :: post
        /\ PUT numberToString data now json
           = (pre ++ update old body now :: post,
              ok (Done (str "Item updated successfully")
                    (update old body now))))
  /\ (status (snd (PUT numberToString data now json)) <> 200%nat ->
      fst (PUT numberToString data now json) = data).
Proof.
  unfold PUT.
  destruct json as [body|]; [|simpl; repeat split; try discriminate; auto].
  assert (T : forall r : list Item * Response,
             fst r = data -> status (snd r) <> 200%nat ->
             map id (fst r) = map id data
             /\ map createdAt (fst r) = map createdAt data
             /\ (status (snd r) = 200%nat ->
                 exists body0 pre old post,
                   Some body = Some body0 /\ data = pre ++ old :: post
                   /\ r = (pre ++ update old body0 now :: post,
                           ok (Done (str "Item updated successfully")
                                 (update old body0 now))))
             /\ (status (snd r) <> 200%nat -> fst r = data)).
  { intros r E St. rewrite E. repeat split; auto. intros H. contradiction. }
  destruct body as [|b|x|s|l|ps];
    try (apply T; [reflexivity | discriminate]).
  destruct (given (member (str "id") (JObject ps)));
    [|apply T; [reflexivity | discriminate]].
  destruct data as [|i0 data']; [apply T; [reflexivity | discriminate]|].
  destruct (toString numberToString _) as [s|];
    [|apply T; [reflexivity | discriminate]].
  destruct (findIndex (hasId (parseInt s)) (i0 :: data')) as [[i old]|] eqn:F;
    [|apply T; [reflexivity | discriminate]].
  destruct (findIndex_Some _ _ F) as [pre [post [E [L [Px Hpre]]]]].
  rewrite E. rewrite <- L, assign_middle. cbn [fst snd].
  rewrite !map_app. simpl.
  split; [reflexivity|]. split; [reflexivity|].
  split; [|intros H; contradiction H; reflexivity].
  intros _. exists (JObject ps), pre, old, post. auto.
Qed.

(** X16. PUT never changes the ids, the creation times or the number of
    the items; when it answers 200 it has replaced one item by its update
    and returns the update; with any other answer the array is as it was. *)
Theorem put_spec (data : list Item) (now : jsstring) (json : option JSON) :
  map id (fst (PUT numberToString data now json)) = map id data
  /\ map createdAt (fst (PUT numberToString data now json))
     = map createdAt data
  /\ (status (snd (PUT numberToString data now json)) = 200%nat ->
      exists body pre old post,
        json = Some body
        /\ data = pre ++ old :: post
        /\ PUT numberToString data now json
           = (pre ++ update old body now :: post,
              ok (Done (str "Item updated successfully")
                    (update old body now))))
  /\ (status (snd (PUT numberToString data now json)) <> 200%nat ->
      fst (PUT numberToString data now json) = data).
Proof. exact (@put_cases data now json). Qed.

Lemma app_same_length (A : Type) (l1 l1' l2 l2' : list A) :
  List.length l1 = List.length l1' -> l1 ++ l2 = l1' ++ l2' ->
  l1 = l1' /\ l2 = l2'.
Proof.
  revert l1'; induction l1 as [|x l1 IH]; intros [|y l1'] L E;
    try discriminate L; simpl in *; [auto|].
  injection E as -> E. injection L as L.
  destruct (IH _ L E) as [-> ->]. auto.
Qed.

Lemma dense_split (pre post : list Item) (x : Item) :
  dense (pre ++ x :: post) ->
  id x = S (List.length pre)
  /\ Forall (fun y => (id y <= List.length pre)%nat) pre
  /\ map id post = seq (S (S (List.length pre))) (List.length post).
Proof.
  unfold dense. rewrite map_app, length_app. simpl.
  rewrite seq_app. intros E.
  apply app_same_length in E; [|rewrite length_map, length_seq; reflexivity].
  destruct E as [E1 E2]. simpl in E2. injection E2 as Ex Ep.
  split; [exact Ex|]. split; [|exact Ep].
  apply Forall_forall. intros y Hy.
  assert (Hin : In (id y) (map id pre)) by (apply in_map, Hy).
  rewrite E1 in Hin. apply in_seq in Hin. lia.
Qed.

(** ** The ids *)

Lemma dense_bound (data : list Item) :
  dense data -> Forall (fun y => (1 <= id y <= List.length data)%nat) data.
Proof.
  unfold dense. intros H. apply Forall_forall. intros y Hy.
  assert (Hin : In (id y) (map id data)) by (apply in_map, Hy).
  rewrite H in Hin. apply in_seq in Hin. lia.
Qed.

Lemma hasId_nat (k : nat) (y : Item) :
  hasId (Some (Z.of_nat k)) y = (id y =? k)%nat.
Proof.
  unfold hasId. destruct (Nat.eqb_spec (id y) k) as [->|H].
  - apply Z.eqb_refl.
  - apply Z.eqb_neq. lia.
Qed.

Lemma dense_post (data : list Item) (now : jsstring) (json : option JSON) :
  dense data -> dense (fst (POST data now json)).
Proof.
  intros H.
  destruct (Nat.eq_dec (status (snd (POST data now json))) 201) as [St|St].
  - destruct (proj1 (post_cases data now json) St) as [n [d [_ [_ E]]]].
    rewrite E. cbn [fst]. unfold dense in *.
    rewrite map_app, length_app. cbn [map id List.length].
    replace (List.length data + 1)%nat with (S (List.length data)) by lia.
    rewrite seq_S, H. reflexivity.
  - rewrite (proj1 (proj1 (proj2 (post_cases data now json)) St)). exact H.
Qed.

Lemma dense_put (data : list Item) (now : jsstring) (json : option JSON) :
  dense data -> dense (fst (PUT numberToString data now json)).
Proof.
  unfold dense. intros H.
  destruct (put_cases data now json) as [E _].
  rewrite <- (length_map id (fst (PUT numberToString data now json))).
  rewrite E, length_map. exact H.
Qed.

(** X18. The ids of the initial array are 1, 2. As long as no DELETE is
    served, the ids stay 1, 2, ... in order, hence distinct; and then an item
    just created is the one GET returns for its id. *)
Theorem ids_stay_dense :
  dense data0
  /\ (forall data rs,
         dense data -> forallb (fun r => negb (isDelete r)) rs = true ->
         dense (serve numberToString data rs))
  /\ (forall data, dense data -> NoDup (map id data))
  /\ (forall data now json,
         dense data ->
         status (snd (POST data now json)) = 201%nat ->
         exists item,
           body (snd (POST data now json))
           = Done (str "Item created successfully") item
           /\ GET (fst (POST data now json)) (Some (decimal (id item)))
              = ok (TheItem item)).
Proof.
  split; [reflexivity|]. split; [|split].
  - intros data rs. revert data. unfold serve.
    induction rs as [|r rs IH]; intros data H Hrs; simpl; [exact H|].
    simpl in Hrs. apply andb_true_iff in Hrs. destruct Hrs as [Hr Hrs].
    apply IH; [|exact Hrs].
    destruct r as [i|t j|t j|i]; simpl; auto using dense_post, dense_put.
    discriminate Hr.
  - intros data H. unfold dense in H. rewrite H. apply seq_NoDup.
  - intros data now json H St.
    destruct (proj1 (post_cases data now json) St) as [n [d [_ [_ E]]]].
    rewrite E. cbn [fst snd body]. eexists. split; [reflexivity|].
    unfold GET. cbn [id].
    pose proof (digitsOf_nonempty (List.length data + 1)) as Hne.
    destruct (decimal (List.length data + 1)) as [|c r] eqn:D; [congruence|].
    cbn [present]. rewrite <- D, (proj1 (parseInt_decimal _)).
    rewrite find_skip.
    + simpl. rewrite Z.eqb_refl. reflexivity.
    + eapply Forall_impl; [|apply dense_bound, H].
      intros y Hy. cbv beta in Hy. rewrite hasId_nat.
      apply Nat.eqb_neq. lia.
Qed.

(** X19. From an array whose ids are 1, 2, ... in order: after a DELETE that
    removes an item other than the last, the item a POST creates gets the id
    of the last item, which is still there. GET for that id returns the
    older item, and the ids are no longer distinct. *)
Theorem delete_then_create (data : list Item) (s now : jsstring)
  (json : option JSON) :
  dense data ->
  status (snd (DELETE data (Some s))) = 200%nat ->
  parseInt s <> Some (Z.of_nat (List.length data)) ->
  status (snd (POST (fst (DELETE data (Some s))) now json)) = 201%nat ->
  exists older created,
    body (snd (POST (fst (DELETE data (Some s))) now json))
    = Done (str "Item created successfully") created
    /\ id created = List.length data
    /\ In older (fst (DELETE data (Some s)))
    /\ id older = List.length data
    /\ GET (fst (POST (fst (DELETE data (Some s))) now json))
         (Some (decimal (List.length data)))
       = ok (TheItem older)
    /\ ~ NoDup (map id (fst (POST (fst (DELETE data (Some s))) now json))).
Proof.
  intros Hd S1 Hlast S2.
  destruct (proj1 (delete_cases data (Some s)) S1)
    as [s' [pre [x [post [Hp [E [Hx [Hpre ED]]]]]]]].
  assert (s' = s) by (destruct s; [discriminate Hp | injection Hp; auto]).
  subst s'. rewrite ED in *. cbn [fst] in *.
  rewrite E in Hd. destruct (dense_split _ _ _ Hd) as [Ix [Ipre Ipost]].
  assert (Hn : List.length data = (List.length pre + S (List.length post))%nat)
    by (rewrite E, length_app; reflexivity).
  assert (Hnot : id x <> List.length data).
  { intros Heq. apply Hlast. unfold hasId in Hx.
    destruct (parseInt s) as [z|]; [|discriminate Hx].
    apply Z.eqb_eq in Hx. rewrite <- Hx, Heq. reflexivity. }
  destruct post as [|p0 post0]; [simpl in Hn; lia|].
  destruct (@exists_last _ (p0 :: post0) ltac:(discriminate))
    as [post' [older Epost]].
  rewrite Epost in *. clear Epost p0 post0.
  rewrite length_app in Hn, Ipost. simpl in Hn, Ipost.
  rewrite map_app, Nat.add_1_r, seq_S in Ipost. simpl in Ipost.
  apply app_inj_tail in Ipost. destruct Ipost as [Ipost' Iolder].
  assert (Hpost' : Forall (fun y => (id y < List.length data)%nat) post').
  { apply Forall_forall. intros y Hy.
    assert (Hin : In (id y) (map id post')) by (apply in_map, Hy).
    rewrite Ipost' in Hin. apply in_seq in Hin. lia. }
  destruct (proj1 (post_cases (pre ++ post' ++ [older]) now json) S2)
    as [n [d [_ [_ EP]]]].
  rewrite EP. cbn [fst snd body].
  assert (L1 : (List.length (pre ++ post' ++ [older]) + 1)%nat
               = List.length data).
  { rewrite !length_app. simpl. lia. }
  rewrite L1.
  eexists older, _. split; [reflexivity|].
  split; [reflexivity|].
  split; [apply in_or_app; right; apply in_or_app; right; left; reflexivity|].
  split; [lia|]. split.
  - unfold GET.
    pose proof (digitsOf_nonempty (List.length data)) as Hne.
    destruct (decimal (List.length data)) as [|c r] eqn:D; [congruence|].
    cbn [present]. rewrite <- D, (proj1 (parseInt_decimal _)).
    rewrite <- !app_assoc.
    rewrite find_skip.
    + rewrite find_skip.
      * simpl. replace (Z.of_nat (id older) =? Z.of_nat (List.length data))%Z
          with true by (symmetry; apply Z.eqb_eq; lia).
        reflexivity.
      * eapply Forall_impl; [|exact Hpost'].
        intros y Hy. cbv beta in Hy. rewrite hasId_nat.
        apply Nat.eqb_neq. lia.
    + eapply Forall_impl; [|exact Ipre].
      intros y Hy. cbv beta in Hy. rewrite hasId_nat.
      apply Nat.eqb_neq. lia.
  - rewrite <- !app_assoc, !map_app. simpl map.
    rewrite app_assoc. intros ND.
    apply NoDup_remove_2 in ND. apply ND.
    apply in_or_app. right. left. lia.
Qed.

End PutFacts.

(** ** At the initial array *)

Lemma delete_then_create_witness :
  dense data0
  /\ status (snd (DELETE data0 (Some (str "1")))) = 200%nat
  /\ parseInt (str "1") <> Some (Z.of_nat (List.length data0))
  /\ status (snd (POST (fst (DELETE data0 (Some (str "1")))) (str "T")
                    (Some thirdItem))) = 201%nat
  /\ ~ NoDup (map id (fst (POST (fst (DELETE data0 (Some (str "1"))))
                             (str "T") (Some thirdItem)))).
Proof.
  assert (H : parseInt (str "1") <> Some (Z.of_nat (List.length data0)))
    by (vm_compute; discriminate).
  split; [reflexivity|]. split; [reflexivity|]. split; [exact H|].
  split; [reflexivity|].
  destruct (@delete_then_create data0 (str "1") (str "T") (Some thirdItem)
              eq_refl eq_refl H eq_refl)
    as [older [created [_ [_ [_ [_ [_ ND]]]]]]].
  exact ND.
Defined.

End RouteFacts.
